(** * The client request layer of geekon: [web/src/app/api/client/requests.ts]

    The file embeds the five functions of the source ([handleResponse],
    [handleError], [buildQuery], [useServerMutation], [useServerQuery])
    together with the part of the JavaScript runtime they run on, and proves
    the properties of the envelope decoder, the error classifier, the request
    executor and the two hook wrappers.

    Layout: the runtime ([Module JS]), the effects (console, notifier,
    network) as a state-and-exception monad, the source functions, the
    collaborators (axios, the mutation engine, React's effect scheduling),
    and then the theorems. *)

From Stdlib Require Import ZArith NArith String Ascii List Bool Lia.
From Stdlib Require Import Floats.SpecFloat.
From stdpp Require Import base option list strings gmap.

Set Warnings "-register-all".
Local Open Scope Z_scope.

(** ** The JavaScript runtime

    Values are the plain data values a decoded response body or [JSON.parse]
    can yield, plus [undefined]. Strings are byte strings holding UTF-8 (a
    lone surrogate, which a JS string may contain, is held in its three-byte
    generalised form). Numbers are IEEE-754 binary64 values in the Standard
    Library's [spec_float]. *)
Module JS.

(** *** Numbers *)

Definition number : Type := spec_float.

Definition prec : Z := 53.
Definition emax : Z := 1024.

Definition NaN : number := S754_nan.
Definition pos_zero : number := S754_zero false.

(** The Number nearest to the integer [z] (ties to even). *)
Definition num_of_Z (z : Z) : number := binary_normalize prec emax z 0 false.

(** The Number nearest to [(-1)^neg * m * 10^e]: what reading a decimal
    literal yields. *)
Definition num_of_decimal (neg : bool) (m : N) (e : Z) : number :=
  match m with
  | N0 => S754_zero neg
  | Npos p =>
      if 0 <=? e
      then binary_normalize prec emax
             ((if neg then Z.opp else id) (Zpos p * 10 ^ e)) 0 false
      else SFdiv prec emax (S754_finite neg p 0)
             (S754_finite false (Z.to_pos (10 ^ (- e))) 0)
  end.

(** [ToBoolean] on a Number: [+0], [-0] and [NaN] are falsy. *)
Definition num_truthy (n : number) : bool :=
  match n with
  | S754_zero _ | S754_nan => false
  | _ => true
  end.

(** [0 < n]. *)
Definition num_gt0 (n : number) : bool := SFltb pos_zero n.

(** Decimal digits of a natural number, most significant first. *)
Fixpoint digits_fuel (fuel : nat) (n : N) (acc : string) : string :=
  match fuel with
  | O => acc
  | S fuel =>
      let acc := String (ascii_of_N (48 + n mod 10)) acc in
      if (n <? 10)%N then acc else digits_fuel fuel (n / 10)%N acc
  end.

Definition digits (n : N) : string :=
  digits_fuel (S (N.to_nat (N.log2 n))) n EmptyString.

Definition zeros (k : nat) : string :=
  string_of_list_ascii (repeat "0"%char k).

(** The decimal exponent [n] of a positive rational [p/q]:
    [10^(n-1) <= p/q < 10^n]. *)
Definition decimal_exponent (p q : Z) : Z :=
  if q <=? p
  then Z.of_nat (String.length (digits (Z.to_N (p / q))))
  else 1 - Z.of_nat (String.length (digits (Z.to_N ((q + p - 1) / p - 1)))).

(** The value of a finite positive Number as a fraction. *)
Definition fraction_of (m : positive) (e : Z) : Z * Z :=
  if 0 <=? e then (Zpos m * 2 ^ e, 1) else (Zpos m, 2 ^ (- e)).

(** [floor (p/q / 10^k)]. *)
Definition scaled_floor (p q k : Z) : Z :=
  if 0 <=? k then p / (q * 10 ^ k) else (p * 10 ^ (- k)) / q.

(** Whether the [k]-digit candidate [s * 10^(n-k)] reads back as [x],
    and the comparison of twice its distance to [p/q]. *)
Definition reads_back (x : number) (s n k : Z) : bool :=
  match SFcompare (num_of_decimal false (Z.to_N s) (n - k)) x with
  | Some Eq => true
  | _ => false
  end.

(** Whether [lo] is at most as far from [p/q] as [lo + 1], in units of
    [10^d]: [2 * p/q <= (2 * lo + 1) * 10^d], and whether it is a tie. *)
Definition nearer_low (p q lo d : Z) : comparison :=
  if 0 <=? d
  then (2 * p) ?= ((2 * lo + 1) * 10 ^ d * q)
  else (2 * p * 10 ^ (- d)) ?= ((2 * lo + 1) * q).

(** The shortest digit string [s] (as an integer of [k] digits) and the
    exponent [n] with [s * 10^(n-k)] reading back as [x]; the nearest
    such [s], the even one on a tie. *)
Fixpoint shortest (fuel : nat) (x : number) (p q n k : Z) : Z * Z * Z :=
  let lo := scaled_floor p q (n - k) in
  let hi := lo + 1 in
  let pick (s : Z) :=
    if s =? 10 ^ k then (10 ^ (k - 1), n + 1, k) else (s, n, k) in
  let lo_ok := reads_back x lo n k in
  let hi_ok := reads_back x hi n k in
  match fuel with
  | O => pick lo
  | S fuel =>
      if lo_ok && hi_ok then
        match nearer_low p q lo (n - k) with
        | Lt => pick lo
        | Gt => pick hi
        | Eq => if Z.even lo then pick lo else pick hi
        end
      else if lo_ok then pick lo
      else if hi_ok then pick hi
      else shortest fuel x p q n (k + 1)
  end.

Definition exponent_text (e : Z) : string :=
  String "e" (String (if e <? 0 then "-"%char else "+"%char)
                (digits (Z.to_N (Z.abs e)))).

(** [Number::toString] for a finite positive Number with digits [s]
    ([k] of them) and exponent [n]. *)
Definition format_digits (s n k : Z) : string :=
  let ds := digits (Z.to_N s) in
  if (k <=? n) && (n <=? 21) then
    String.append ds (zeros (Z.to_nat (n - k)))
  else if (0 <? n) && (n <=? 21) then
    String.append (String.substring 0 (Z.to_nat n) ds)
      (String "." (String.substring (Z.to_nat n) (Z.to_nat (k - n)) ds))
  else if (-6 <? n) && (n <=? 0) then
    String.append "0." (String.append (zeros (Z.to_nat (- n))) ds)
  else if k =? 1 then
    String.append ds (exponent_text (n - 1))
  else
    String.append (String.substring 0 1 ds)
      (String "." (String.append (String.substring 1 (Z.to_nat (k - 1)) ds)
                     (exponent_text (n - 1)))).

(** [Number::toString(x)] in radix 10. *)
Definition num_to_string (x : number) : string :=
  match x with
  | S754_nan => "NaN"
  | S754_zero _ => "0"
  | S754_infinity neg => if neg then "-Infinity" else "Infinity"
  | S754_finite neg m e =>
      let '(p, q) := fraction_of m e in
      let n := decimal_exponent p q in
      let '(s, n', k) := shortest 17 (S754_finite false m e) p q n 1 in
      String.append (if neg then "-" else EmptyString) (format_digits s n' k)
  end.

(** *** Strings as sequences of UTF-16 code units *)

Definition is_cont (a : ascii) : bool :=
  let b := N_of_ascii a in ((0x80 <=? b) && (b <? 0xC0))%N.

Definition cont (a : ascii) : N := N.land (N_of_ascii a) 0x3F.

(** The code units of a string held as UTF-8. A byte that starts no
    well-formed sequence is kept as a unit of its own. *)
Fixpoint units (s : string) : list N :=
  match s with
  | EmptyString => []
  | String a r =>
      let b := N_of_ascii a in
      let other := b :: units r in
      if (b <? 0x80)%N then other else
      match r with
      | String a1 r1 =>
          if negb (is_cont a1) then other else
          if ((0xC0 <=? b) && (b <? 0xE0))%N then
            N.lor (N.shiftl (N.land b 0x1F) 6) (cont a1) :: units r1
          else
          match r1 with
          | String a2 r2 =>
              if negb (is_cont a2) then other else
              if ((0xE0 <=? b) && (b <? 0xF0))%N then
                N.lor (N.shiftl (N.land b 0x0F) 12)
                  (N.lor (N.shiftl (cont a1) 6) (cont a2)) :: units r2
              else
              match r2 with
              | String a3 r3 =>
                  if is_cont a3 && (0xF0 <=? b)%N && (b <? 0xF8)%N then
                    let cp :=
                      N.lor (N.shiftl (N.land b 0x07) 18)
                        (N.lor (N.shiftl (cont a1) 12)
                           (N.lor (N.shiftl (cont a2) 6) (cont a3))) in
                    let c := (cp - 0x10000)%N in
                    (0xD800 + N.shiftr c 10)%N
                      :: (0xDC00 + N.land c 0x3FF)%N :: units r3
                  else other
              | EmptyString => other
              end
          | EmptyString => other
          end
      | EmptyString => other
      end
  end.

Definition is_high (u : N) : bool := ((0xD800 <=? u) && (u <? 0xDC00))%N.
Definition is_low (u : N) : bool := ((0xDC00 <=? u) && (u <? 0xE000))%N.

Definition tail_byte (n : N) : ascii := ascii_of_N (N.lor 0x80 (N.land n 0x3F)).

Definition three_bytes (u : N) (r : string) : string :=
  String (ascii_of_N (N.lor 0xE0 (N.shiftr u 12)))
    (String (tail_byte (N.shiftr u 6)) (String (tail_byte u) r)).

(** The UTF-8 string of a sequence of code units; a surrogate pair becomes
    one four-byte sequence. *)
Fixpoint of_units (us : list N) : string :=
  match us with
  | [] => EmptyString
  | u :: r =>
      if (u <? 0x80)%N then String (ascii_of_N u) (of_units r)
      else if (u <? 0x800)%N then
        String (ascii_of_N (N.lor 0xC0 (N.shiftr u 6)))
          (String (tail_byte u) (of_units r))
      else
        match r with
        | l :: r' =>
            if is_high u && is_low l then
              let cp := (0x10000 + N.shiftl (u - 0xD800) 10 + (l - 0xDC00))%N in
              String (ascii_of_N (N.lor 0xF0 (N.shiftr cp 18)))
                (String (tail_byte (N.shiftr cp 12))
                   (String (tail_byte (N.shiftr cp 6))
                      (String (tail_byte cp) (of_units r'))))
            else three_bytes u (of_units r)
        | [] => three_bytes u EmptyString
        end
  end.

(** [String.prototype.includes(needle)]. *)
Fixpoint str_includes (s needle : string) : bool :=
  String.prefix needle s
  || match s with
     | EmptyString => false
     | String _ r => str_includes r needle
     end.

(** *** Values *)

Inductive value : Type :=
| JUndefined
| JNull
| JBool (b : bool)
| JNum (n : number)
| JStr (s : string)
| JArr (items : list value)
| JObj (fields : gmap string value).

(** The errors the runtime itself raises. *)
Inductive native_error : Type := TypeError | SyntaxError.

Inductive res (A : Type) : Type :=
| Val (a : A)
| Err (e : native_error).
Arguments Val {A} a.
Arguments Err {A} e.

Definition res_bind {A B : Type} (r : res A) (k : A -> res B) : res B :=
  match r with
  | Val a => k a
  | Err e => Err e
  end.


(** [typeof v]. *)
Definition typeof (v : value) : string :=
  match v with
  | JUndefined => "undefined"
  | JBool _ => "boolean"
  | JNum _ => "number"
  | JStr _ => "string"
  | JNull | JArr _ | JObj _ => "object"
  end.

(** [ToBoolean], as [!v], [!!v] and the operands of [&&] apply it. *)
Definition to_boolean (v : value) : bool :=
  match v with
  | JUndefined | JNull => false
  | JBool b => b
  | JNum n => num_truthy n
  | JStr s => negb (String.eqb s EmptyString)
  | JArr _ | JObj _ => true
  end.

Fixpoint read_nat (acc : N) (s : string) : option N :=
  match s with
  | EmptyString => Some acc
  | String c r =>
      let d := N_of_ascii c in
      if ((48 <=? d) && (d <? 58))%N then read_nat (acc * 10 + (d - 48))%N r
      else None
  end.

(** The array index a property key denotes, if it is the canonical
    decimal text of one. *)
Definition index_of_key (k : string) : option nat :=
  match k with
  | EmptyString => None
  | _ =>
      match read_nat 0 k with
      | Some n => if String.eqb (digits n) k then Some (N.to_nat n) else None
      | None => None
      end
  end.

Definition num_of_nat (n : nat) : number := num_of_Z (Z.of_nat n).

(** Property read [v.k] (or [v[k]]) for a key [k] that names no member
    of a built-in prototype: the own data properties of objects, the
    elements and [length] of arrays and strings. Reading a property of
    [undefined] or [null] raises. *)
Definition get (v : value) (k : string) : res value :=
  match v with
  | JUndefined | JNull => Err TypeError
  | JBool _ | JNum _ => Val JUndefined
  | JStr s =>
      let us := units s in
      if String.eqb k "length" then Val (JNum (num_of_nat (length us)))
      else match index_of_key k with
           | Some i => Val (from_option (fun u => JStr (of_units [u])) JUndefined (us !! i))
           | None => Val JUndefined
           end
  | JArr items =>
      if String.eqb k "length" then Val (JNum (num_of_nat (length items)))
      else match index_of_key k with
           | Some i => Val (default JUndefined (items !! i))
           | None => Val JUndefined
           end
  | JObj fields => Val (default JUndefined (fields !! k))
  end.

(** Optional chaining [v?.k]. *)
Definition opt_get (v : value) (k : string) : res value :=
  match v with
  | JUndefined | JNull => Val JUndefined
  | _ => get v k
  end.

(** [k in v], for the same keys as [get]; raises unless [v] is an
    object. *)
Definition has_property (k : string) (v : value) : res bool :=
  match v with
  | JObj fields => Val (bool_decide (is_Some (fields !! k)))
  | JArr items =>
      Val (String.eqb k "length"
           || match index_of_key k with
              | Some i => bool_decide (i < length items)%nat
              | None => false
              end)
  | _ => Err TypeError
  end.

(** [ToString]: what [+] with a string operand and [JSON.parse] apply to
    their argument. An array is joined with commas ([undefined] and
    [null] elements give the empty text); a plain object gives
    ["[object Object]"], unless an own [toString] property (data, so not
    callable) hides [Object.prototype.toString], which raises. *)
Fixpoint to_string (v : value) : res string :=
  match v with
  | JUndefined => Val "undefined"
  | JNull => Val "null"
  | JBool b => Val (if b then "true" else "false")
  | JNum n => Val (num_to_string n)
  | JStr s => Val s
  | JArr items =>
      (fix join (first : bool) (l : list value) : res string :=
         match l with
         | [] => Val EmptyString
         | x :: l' =>
             res_bind
               (match x with
                | JUndefined | JNull => Val EmptyString
                | _ => to_string x
                end)
               (fun sx =>
                  res_bind (join false l')
                    (fun sl =>
                       Val (String.append (if first then EmptyString else ",")
                              (String.append sx sl))))
         end) true items
  | JObj fields =>
      match fields !! "toString" with
      | Some _ => Err TypeError
      | None => Val "[object Object]"
      end
  end.

(** [ToPrimitive]: arrays and objects become their [ToString] text. *)
Definition to_primitive (v : value) : res value :=
  match v with
  | JArr _ | JObj _ => res_bind (to_string v) (fun s => Val (JStr s))
  | _ => Val v
  end.

(** *** Numeric literals *)

Definition ascii_of_unit (u : N) : option ascii :=
  if (u <? 128)%N then Some (ascii_of_N u) else None.

Definition digit_value (c : ascii) : option N :=
  let n := N_of_ascii c in
  if ((48 <=? n) && (n <? 58))%N then Some (n - 48)%N
  else if ((97 <=? n) && (n <? 103))%N then Some (n - 87)%N
  else if ((65 <=? n) && (n <? 71))%N then Some (n - 55)%N
  else None.

(** Reads the longest run of digits of the base, continuing the value
    [acc]: the value, the number of digits read, the rest. *)
Fixpoint read_digits (base acc : N) (count : nat) (s : list ascii)
  : N * nat * list ascii :=
  match s with
  | c :: r =>
      match digit_value c with
      | Some d =>
          if (d <? base)%N then read_digits base (acc * base + d)%N (S count) r
          else (acc, count, s)
      | None => (acc, count, s)
      end
  | [] => (acc, count, s)
  end.

(** An optional exponent part [e±ddd]; [None] when an [e] is followed by
    no digit. *)
Definition read_exponent (s : list ascii) : option (Z * list ascii) :=
  match s with
  | c :: r =>
      if (Ascii.eqb c "e" || Ascii.eqb c "E")%bool then
        let '(neg, r1) :=
          match r with
          | sg :: r1 =>
              if Ascii.eqb sg "-" then (true, r1)
              else if Ascii.eqb sg "+" then (false, r1)
              else (false, r)
          | [] => (false, r)
          end in
        let '(e, n, r2) := read_digits 10 0 0 r1 in
        match n with
        | O => None
        | S _ => Some (if neg then - Z.of_N e else Z.of_N e, r2)
        end
      else Some (0, s)
  | [] => Some (0, s)
  end.

Record decimal : Type := {
  int_count : nat;      (* digits before the point *)
  has_point : bool;
  frac_count : nat;     (* digits after the point *)
  mantissa : N;         (* all the digits, as one integer *)
  exponent : Z          (* the written exponent *)
}.

(** Digits, an optional point with digits, an optional exponent. *)
Definition read_decimal (s : list ascii) : option (decimal * list ascii) :=
  let '(i, ni, r) := read_digits 10 0 0 s in
  let '(m, nf, pt, r1) :=
    match r with
    | c :: r' =>
        if Ascii.eqb c "." then
          let '(m, nf, r1) := read_digits 10 i 0 r' in (m, nf, true, r1)
        else (i, O, false, r)
    | [] => (i, O, false, r)
    end in
  match read_exponent r1 with
  | Some (e, r2) =>
      Some ({| int_count := ni; has_point := pt; frac_count := nf;
               mantissa := m; exponent := e |}, r2)
  | None => None
  end.

Definition decimal_value (neg : bool) (d : decimal) : number :=
  num_of_decimal neg (mantissa d) (exponent d - Z.of_nat (frac_count d)).

(** The JSON number grammar: an optional minus sign; an integer part, a
    single 0 or digits not starting with 0; an optional point followed by
    at least one digit; an optional exponent. *)
Definition json_number (s : list ascii) : option number :=
  let '(neg, r) :=
    match s with
    | c :: r => if Ascii.eqb c "-" then (true, r) else (false, s)
    | [] => (false, s)
    end in
  match read_decimal r with
  | Some (d, []) =>
      let int_ok :=
        match int_count d, r with
        | 1%nat, _ => true
        | S _, c :: _ => negb (Ascii.eqb c "0")
        | _, _ => false
        end in
      let frac_ok := implb (has_point d) (negb (Nat.eqb (frac_count d) 0)) in
      if int_ok && frac_ok then Some (decimal_value neg d) else None
  | _ => None
  end.

(** White space and line terminators, as [StringToNumber] trims them. *)
Definition is_space (u : N) : bool :=
  (existsb (N.eqb u)
     [9; 10; 11; 12; 13; 32; 160; 0x1680; 0x2028; 0x2029; 0x202F; 0x205F;
      0x3000; 0xFEFF]
   || ((0x2000 <=? u) && (u <=? 0x200A)))%N.

Fixpoint skip_spaces (l : list N) : list N :=
  match l with
  | u :: r => if is_space u then skip_spaces r else l
  | [] => []
  end.

Definition trim (l : list N) : list N :=
  rev (skip_spaces (rev (skip_spaces l))).

Definition radix_literal (base : N) (s : list ascii) : number :=
  match read_digits base 0 0 s with
  | (n, S _, []) => num_of_Z (Z.of_N n)
  | _ => NaN
  end.

Definition infinity_text : list ascii := list_ascii_of_string "Infinity".

Definition signed_literal (neg : bool) (s : list ascii) : number :=
  if bool_decide (s = infinity_text) then S754_infinity neg
  else match read_decimal s with
       | Some (d, []) =>
           match (int_count d + frac_count d)%nat with
           | O => NaN
           | S _ => decimal_value neg d
           end
       | _ => NaN
       end.

(** [StringToNumber]. *)
Definition string_to_number (s : string) : number :=
  match mapM ascii_of_unit (trim (units s)) with
  | None => NaN
  | Some [] => pos_zero
  | Some ((c :: r) as cs) =>
      if Ascii.eqb c "-" then signed_literal true r
      else if Ascii.eqb c "+" then signed_literal false r
      else
        match r with
        | p :: r' =>
            if Ascii.eqb c "0" && (Ascii.eqb p "x" || Ascii.eqb p "X")
            then radix_literal 16 r'
            else if Ascii.eqb c "0" && (Ascii.eqb p "o" || Ascii.eqb p "O")
            then radix_literal 8 r'
            else if Ascii.eqb c "0" && (Ascii.eqb p "b" || Ascii.eqb p "B")
            then radix_literal 2 r'
            else signed_literal false cs
        | [] => signed_literal false cs
        end
  end.

(** [ToNumber]. *)
Definition to_number (v : value) : res number :=
  match v with
  | JUndefined => Val NaN
  | JNull => Val pos_zero
  | JBool b => Val (if b then num_of_Z 1 else pos_zero)
  | JNum n => Val n
  | JStr s => Val (string_to_number s)
  | JArr _ | JObj _ => res_bind (to_string v) (fun s => Val (string_to_number s))
  end.

(** [v > 0]. *)
Definition gt_zero (v : value) : res bool :=
  res_bind (to_number v) (fun n => Val (num_gt0 n)).

(** *** [JSON.parse] *)

Inductive token : Type :=
| TLBrace | TRBrace | TLBracket | TRBracket | TColon | TComma
| TStr (s : string)
| TAtom (v : value).           (* a number, [true], [false] or [null] *)

(** The scanner reads one code unit at a time. *)
Inductive scanner : Type :=
| LIdle
| LWord (rest : list ascii) (v : value)   (* inside true, false, null *)
| LNum (acc : list ascii)                 (* a number; reversed *)
| LStr (acc : list N)                     (* a string; reversed *)
| LEsc (acc : list N)                     (* after a backslash *)
| LHex (acc : list N) (k : nat) (h : N).  (* \u with k digits to come *)

Definition is_number_char (c : ascii) : bool :=
  let n := N_of_ascii c in
  (((48 <=? n) && (n <? 58))%N
   || Ascii.eqb c "-" || Ascii.eqb c "+" || Ascii.eqb c "."
   || Ascii.eqb c "e" || Ascii.eqb c "E").

Definition scan_idle (u : N) : option (scanner * list token) :=
  match ascii_of_unit u with
  | None => None
  | Some c =>
      if (existsb (N.eqb u) [9; 10; 13; 32])%N then Some (LIdle, [])
      else if Ascii.eqb c "{" then Some (LIdle, [TLBrace])
      else if Ascii.eqb c "}" then Some (LIdle, [TRBrace])
      else if Ascii.eqb c "[" then Some (LIdle, [TLBracket])
      else if Ascii.eqb c "]" then Some (LIdle, [TRBracket])
      else if Ascii.eqb c ":" then Some (LIdle, [TColon])
      else if Ascii.eqb c "," then Some (LIdle, [TComma])
      else if (u =? 34)%N then Some (LStr [], [])
      else if Ascii.eqb c "t"
      then Some (LWord (list_ascii_of_string "rue") (JBool true), [])
      else if Ascii.eqb c "f"
      then Some (LWord (list_ascii_of_string "alse") (JBool false), [])
      else if Ascii.eqb c "n"
      then Some (LWord (list_ascii_of_string "ull") JNull, [])
      else if is_number_char c && negb (Ascii.eqb c "+")
      then Some (LNum [c], [])
      else None
  end.

Definition escape_unit (c : ascii) : option N :=
  if Ascii.eqb c "b" then Some 8%N
  else if Ascii.eqb c "t" then Some 9%N
  else if Ascii.eqb c "n" then Some 10%N
  else if Ascii.eqb c "f" then Some 12%N
  else if Ascii.eqb c "r" then Some 13%N
  else if Ascii.eqb c "/" then Some 47%N
  else if Ascii.eqb c "\" then Some 92%N
  else if (N_of_ascii c =? 34)%N then Some 34%N
  else None.

Definition scan_step (st : scanner) (u : N) : option (scanner * list token) :=
  match st with
  | LIdle => scan_idle u
  | LWord rest v =>
      match rest, ascii_of_unit u with
      | c :: rest', Some c' =>
          if Ascii.eqb c c' then
            match rest' with
            | [] => Some (LIdle, [TAtom v])
            | _ => Some (LWord rest' v, [])
            end
          else None
      | _, _ => None
      end
  | LNum acc =>
      match ascii_of_unit u with
      | Some c =>
          if is_number_char c then Some (LNum (c :: acc), [])
          else
            match json_number (rev acc), scan_idle u with
            | Some n, Some (st', toks) => Some (st', TAtom (JNum n) :: toks)
            | _, _ => None
            end
      | None => None
      end
  | LStr acc =>
      if (u =? 34)%N then Some (LIdle, [TStr (of_units (rev acc))])
      else if (u =? 92)%N then Some (LEsc acc, [])
      else if (u <? 32)%N then None
      else Some (LStr (u :: acc), [])
  | LEsc acc =>
      match ascii_of_unit u with
      | Some c =>
          if Ascii.eqb c "u" then Some (LHex acc 4 0%N, [])
          else match escape_unit c with
               | Some e => Some (LStr (e :: acc), [])
               | None => None
               end
      | None => None
      end
  | LHex acc k h =>
      match ascii_of_unit u with
      | Some c =>
          match digit_value c, k with
          | Some d, 1%nat => Some (LStr ((h * 16 + d)%N :: acc), [])
          | Some d, S k' => Some (LHex acc k' (h * 16 + d)%N, [])
          | _, _ => None
          end
      | None => None
      end
  end.

Fixpoint scan (st : scanner) (us : list N) : option (list token) :=
  match us with
  | [] =>
      match st with
      | LIdle => Some []
      | LNum acc =>
          match json_number (rev acc) with
          | Some n => Some [TAtom (JNum n)]
          | None => None
          end
      | _ => None
      end
  | u :: r =>
      match scan_step st u with
      | Some (st', toks) =>
          match scan st' r with
          | Some rest => Some (toks ++ rest)
          | None => None
          end
      | None => None
      end
  end.

(** The parser keeps the open containers on a stack. *)
Inductive frame : Type :=
| FArr (items : list value)                      (* reversed *)
| FObj (fields : gmap string value) (key : string).

Inductive expect : Type :=
| EValue          (* a value *)
| EValueOrClose   (* after [[]: a value or []] *)
| EKeyOrClose     (* after [{]: a key or [}] *)
| EKey            (* after a comma in an object: a key *)
| EColon          (* after a key *)
| ESep            (* after a member or element: a comma or the closer *)
| EDone (v : value).

(** A value is complete: it goes into the innermost open container, or
    is the result. A repeated key overwrites the earlier member. *)
Definition attach (v : value) (stack : list frame) : list frame * expect :=
  match stack with
  | [] => ([], EDone v)
  | FArr items :: st => (FArr (v :: items) :: st, ESep)
  | FObj fields key :: st => (FObj (<[key := v]> fields) key :: st, ESep)
  end.

Definition wants_value (e : expect) : bool :=
  match e with
  | EValue | EValueOrClose => true
  | _ => false
  end.

Definition parse_step (state : list frame * expect) (t : token)
  : option (list frame * expect) :=
  let '(stack, e) := state in
  match t with
  | TAtom v => if wants_value e then Some (attach v stack) else None
  | TStr s =>
      if wants_value e then Some (attach (JStr s) stack)
      else
        match e, stack with
        | (EKeyOrClose | EKey), FObj fields _ :: st =>
            Some (FObj fields s :: st, EColon)
        | _, _ => None
        end
  | TLBracket =>
      if wants_value e then Some (FArr [] :: stack, EValueOrClose) else None
  | TLBrace =>
      if wants_value e then Some (FObj ∅ EmptyString :: stack, EKeyOrClose)
      else None
  | TColon =>
      match e with
      | EColon => Some (stack, EValue)
      | _ => None
      end
  | TComma =>
      match e, stack with
      | ESep, FArr _ :: _ => Some (stack, EValue)
      | ESep, FObj _ _ :: _ => Some (stack, EKey)
      | _, _ => None
      end
  | TRBracket =>
      match e, stack with
      | (ESep | EValueOrClose), FArr items :: st =>
          Some (attach (JArr (rev items)) st)
      | _, _ => None
      end
  | TRBrace =>
      match e, stack with
      | (ESep | EKeyOrClose), FObj fields _ :: st =>
          Some (attach (JObj fields) st)
      | _, _ => None
      end
  end.

Fixpoint parse_tokens (state : list frame * expect) (ts : list token)
  : option value :=
  match ts with
  | [] =>
      match state with
      | ([], EDone v) => Some v
      | _ => None
      end
  | t :: r =>
      match parse_step state t with
      | Some state' => parse_tokens state' r
      | None => None
      end
  end.

Definition parse_text (text : string) : option value :=
  match scan LIdle (units text) with
  | Some ts => parse_tokens ([], EValue) ts
  | None => None
  end.

(** [JSON.parse(v)]: the argument is converted with [ToString], and a
    text outside the JSON grammar raises a [SyntaxError]. *)
Definition JSON_parse (v : value) : res value :=
  res_bind (to_string v)
    (fun text =>
       match parse_text text with
       | Some r => Val r
       | None => Err SyntaxError
       end).

(** [v.includes(needle)] for a string [needle]: the method of strings
    (substring) and of arrays (an element equal to [needle]); any other
    value has no callable [includes], and the call raises. *)
Definition call_includes (v : value) (needle : string) : res bool :=
  match v with
  | JStr s => Val (str_includes s needle)
  | JArr items =>
      Val (existsb (fun x => match x with
                              | JStr s => String.eqb s needle
                              | _ => false
                              end) items)
  | _ => Err TypeError
  end.

End JS.

Import JS.

Notation "'let?' x ':=' c 'in' k" := (res_bind c (fun x => k))
  (at level 10, x name, c at level 100, k at level 200).

(** ** The transport's data (axios) *)

Inductive Method : Type := POST | GET | PATCH | PUT | DELETE.

(** What the source passes to [axios(...)]. *)
Record AxiosRequestConfig : Type := {
  url : string;
  config_method : Method;
  config_data : value;
  config_params : value
}.

Record AxiosResponse : Type := {
  status : Z;
  response_data : value       (* [res.data], the decoded body *)
}.

(** [AxiosError]: [request] is the request object of the platform (or
    [undefined]), [response] is missing when no response arrived. *)
Record AxiosError : Type := {
  request : value;
  response : option AxiosResponse
}.

(** ** Effects

    The source writes to the console, calls the notifier ([toast.error])
    and issues network calls; a computation may also raise. All of it is
    threaded through [world]. *)

Inductive exn : Type :=
| Native (e : native_error)    (* a TypeError or SyntaxError of the runtime *)
| Rejected (e : AxiosError)    (* the transport's rejection *)
| Failed (reason : string).    (* a plain [Error] of a collaborator *)

Inductive outcome (A : Type) : Type :=
| Ok (a : A)
| Throw (e : exn).
Arguments Ok {A} a.
Arguments Throw {A} e.

(** An error object held by the query cache, with its identity. *)
Record ErrorRef : Type := {
  addr : positive;
  target : AxiosError
}.

Inductive logged : Type :=
| LogValue (v : value)
| LogError (e : option ErrorRef).

Record world : Type := {
  server_base_url : string;
  (* the network: the answer to a request, given the requests sent before *)
  transport : list AxiosRequestConfig -> AxiosRequestConfig
              -> AxiosError + AxiosResponse;
  sent : list AxiosRequestConfig;
  console : list (string * logged);
  toasts : list string
}.

Definition M (A : Type) : Type := world -> outcome A * world.

Definition ret {A : Type} (a : A) : M A := fun w => (Ok a, w).

Definition bind {A B : Type} (m : M A) (k : A -> M B) : M B := fun w =>
  match m w with
  | (Ok a, w') => k a w'
  | (Throw e, w') => (Throw e, w')
  end.

Notation "'let!' x ':=' c 'in' k" := (bind c (fun x => k))
  (at level 10, x name, c at level 100, k at level 200).
Notation "c '>>' k" := (bind c (fun _ => k))
  (at level 100, k at level 200, right associativity).

Definition lift {A : Type} (r : res A) : M A := fun w =>
  (match r with
   | Val a => Ok a
   | Err e => Throw (Native e)
   end, w).

Definition throw {A : Type} (e : exn) : M A := fun w => (Throw e, w).

(** [try { body } catch (e) { handler }]. *)
Definition try_catch {A : Type} (body : M A) (handler : exn -> M A) : M A :=
  fun w =>
    match body w with
    | (Ok a, w') => (Ok a, w')
    | (Throw e, w') => handler e w'
    end.

Definition add_console (entries : list (string * logged)) (w : world) : world :=
  {| server_base_url := server_base_url w; transport := transport w;
     sent := sent w; console := console w ++ entries; toasts := toasts w |}.

Definition add_toasts (messages : list string) (w : world) : world :=
  {| server_base_url := server_base_url w; transport := transport w;
     sent := sent w; console := console w; toasts := toasts w ++ messages |}.

Definition add_sent (requests : list AxiosRequestConfig) (w : world) : world :=
  {| server_base_url := server_base_url w; transport := transport w;
     sent := sent w ++ requests; console := console w; toasts := toasts w |}.

(** [console.log(label, x)]. *)
Definition console_log (label : string) (x : logged) : M unit := fun w =>
  (Ok tt, add_console [(label, x)] w).

(** The notifier, [toast.error(message)]. *)
Definition toast_error (message : string) : M unit := fun w =>
  (Ok tt, add_toasts [message] w).

(** [getServerBaseUrl()], imported from [./server-url]: the base URL the
    application is configured with, a parameter of the world. *)
Definition getServerBaseUrl : M string := fun w => (Ok (server_base_url w), w).

(** [axios(config)]: one network call; resolves with the response or
    rejects with the transport's error. *)
Definition axios (c : AxiosRequestConfig) : M AxiosResponse := fun w =>
  match transport w (sent w) c with
  | inl e => (Throw (Rejected e), add_sent [c] w)
  | inr r => (Ok r, add_sent [c] w)
  end.

(** ** The source *)

(** [a && b] on conditions that may raise: [b] is evaluated only when [a]
    is true. *)
Definition and_then (a b : res bool) : res bool :=
  let? x := a in if x then b else Val false.
Infix "&&&" := and_then (at level 40, left associativity).

(** [prefix + v]. *)
Definition concat (prefix : string) (v : value) : res string :=
  let? s := to_string v in Val (prefix +:+ s).

Definition type_is (v : value) (t : string) : res bool :=
  Val (String.eqb (typeof v) t).

(** The object [handleResponse] returns: [{ data, error }]. *)
Record Decoded : Type := {
  decoded_data : value;
  decoded_error : value
}.

(** [handleResponse] (lines 157-173). The two [if] conditions are kept as
    the source writes them, each test guarded by the ones before it. *)
Definition handleResponse (res : value) : JS.res Decoded :=
  let? c1 :=
    type_is res "object" &&& Val (to_boolean res)
    &&& has_property "error" res
    &&& (let? e := get res "error" in type_is e "string") in
  if c1 then
    let? e := get res "error" in
    Val {| decoded_data := JUndefined; decoded_error := e |}
  else
    let? c2 :=
      type_is res "object" &&& Val (to_boolean res)
      &&& has_property "data" res in
    if c2 then
      let? d := get res "data" in
      Val {| decoded_data := d; decoded_error := JUndefined |}
    else
      Val {| decoded_data := JUndefined;
             decoded_error := JStr "No response from the server" |}.

(** [graphqlErr.graphqlErrors[0]?.message]. *)
Definition first_message (graphqlErr : value) : res value :=
  let? g := get graphqlErr "graphqlErrors" in
  let? x := get g "0" in
  opt_get x "message".

(** The condition of the [if] inside the [try] block. *)
Definition has_first_message (graphqlErr : value) : res bool :=
  (let? g := get graphqlErr "graphqlErrors" in Val (to_boolean g))
  &&& (let? g := get graphqlErr "graphqlErrors" in
       let? l := get g "length" in gt_zero l)
  &&& (let? m := first_message graphqlErr in Val (to_boolean m)).

Definition rate_limit_message : string :=
  "Anilist: Too many requests, please wait a moment and try again".

(** [handleError] (lines 128-155). The [typeof] test, the falsy test and
    the [includes] call come before the [try] block; what they raise is not
    caught. *)
Definition handleError (data : value) : M string :=
  if String.eqb (typeof data) "string" then lift (concat "Server Error" data)
  else
    let! err := lift (opt_get data "error") in
    if negb (to_boolean err) then ret "Unknown error"
    else
      let! limited := lift (call_includes err "Too many requests") in
      if limited then ret rate_limit_message
      else
        try_catch
          (let! graphqlErr := lift (JSON_parse err) in
           console_log "Anilist error" (LogValue graphqlErr) >>
           let! found := lift (has_first_message graphqlErr) in
           if found then
             let! m := lift (first_message graphqlErr) in
             lift (concat "Anilist error: " m)
           else ret "Anilist error")
          (fun _ => lift (concat "Error: " err)).

Record Query : Type := {
  endpoint : string;
  method : Method;
  data : value;       (* [undefined] when absent *)
  params : value
}.

(** [buildQuery] (lines 51-66): one call of [axios], then the [data] slot
    of the decoder's result. *)
Definition buildQuery (q : Query) : M value :=
  let! base := getServerBaseUrl in
  let! res := axios {| url := base +:+ endpoint q; config_method := method q;
                       config_data := data q; config_params := params q |} in
  let! response := lift (handleResponse (response_data res)) in
  ret (decoded_data response).

(** The slots of a hook's options object: data, or a function of one of
    the shapes the engine calls. *)
Inductive slot : Type :=
| SValue (v : value)
| SMutationFn (f : value -> M value)              (* (variables) *)
| SQueryFn (f : M value)                          (* () *)
| SOnError (f : exn -> value -> value -> M unit)  (* (error, variables, context) *)
| SOnSuccess (f : value -> value -> value -> M unit).

(** [{ ...base, ...over }]: the properties of [over] win. *)
Definition spread (base over : gmap string slot) : gmap string slot :=
  over ∪ base.

(** The argument of [useServerMutation]: [endpoint], [method], and the
    rest, [options]. *)
Record ServerMutation : Type := {
  mutation_endpoint : string;
  mutation_method : Method;
  mutation_options : gmap string slot
}.

(** [error.request], for whatever was raised. *)
Definition error_request (error : exn) : value :=
  match error with
  | Rejected e => request e
  | Native _ | Failed _ => JUndefined
  end.

(** The default [onError] of [useServerMutation] (lines 80-82):
    [toast.error(handleError(error.request?.data))]. *)
Definition mutation_onError (error : exn) : M unit :=
  let! d := lift (opt_get (error_request error) "data") in
  let! message := handleError d in
  toast_error message.

(** The default [mutationFn] of [useServerMutation] (lines 83-89). *)
Definition mutation_mutationFn (cfg : ServerMutation) (variables : value) : M value :=
  buildQuery {| endpoint := mutation_endpoint cfg; method := mutation_method cfg;
                data := variables; params := JUndefined |}.

(** [useServerMutation] (lines 74-92): the options object it hands to
    [useMutation], the defaults first and the caller's options after. *)
Definition useServerMutation (cfg : ServerMutation) : gmap string slot :=
  spread
    {[ "onError" := SOnError (fun error _ _ => mutation_onError error);
       "mutationFn" := SMutationFn (mutation_mutationFn cfg) ]}
    (mutation_options cfg).

(** The argument of [useServerQuery]. *)
Record ServerQuery : Type := {
  query_endpoint : string;
  query_method : Method;
  query_params : value;
  query_data : value;
  muteError : option bool;      (* [None] is [undefined] *)
  query_options : gmap string slot
}.

(** What [useQuery] returned at a render, as far as the source reads it. *)
Record QueryResult : Type := {
  error : option ErrorRef;      (* [None] is [null] *)
  isError : bool
}.

Definition query_queryFn (cfg : ServerQuery) : M value :=
  buildQuery {| endpoint := query_endpoint cfg; method := query_method cfg;
                data := query_data cfg; params := query_params cfg |}.

(** The options object [useServerQuery] hands to [useQuery]. *)
Definition useServerQuery_options (cfg : ServerQuery) : gmap string slot :=
  spread {[ "queryFn" := SQueryFn (query_queryFn cfg) ]} (query_options cfg).

(** [props.error?.response?.data]. *)
Definition error_response_data (e : option ErrorRef) : value :=
  match e with
  | Some r =>
      match response (target r) with
      | Some resp => response_data resp
      | None => JUndefined
      end
  | None => JUndefined
  end.

Definition truthy_flag (b : option bool) : bool := default false b.

(** The effect [useServerQuery] registers (lines 120-125). *)
Definition query_effect (cfg : ServerQuery) (props : QueryResult) : M unit :=
  if negb (truthy_flag (muteError cfg)) && isError props then
    console_log "Server error" (LogError (error props)) >>
    let! message := handleError (error_response_data (error props)) in
    toast_error message
  else ret tt.

(** The dependency array [[props.error, props.isError, muteError]]; an
    error object is compared by identity. *)
Definition deps : Type := option positive * bool * option bool.

Definition query_deps (cfg : ServerQuery) (props : QueryResult) : deps :=
  (addr <$> error props, isError props, muteError cfg).

(** [useServerQuery], at one render: [props] is what [useQuery] returned
    for [useServerQuery_options cfg]; the hook registers an effect with its
    dependencies. *)
Definition useServerQuery (cfg : ServerQuery) (props : QueryResult)
  : M unit * deps :=
  (query_effect cfg props, query_deps cfg props).

(** ** The collaborators *)

(** The mutation engine ([useMutation]'s [mutate]) belongs to the query
    library, not to [requests.ts]. What follows is the part of a run in
    which the two slots set by [useServerMutation] take part, and on which
    the statements about a failed mutation rest: [mutationFn] runs on the
    variables and, when it rejects, [onError] is called with the error,
    the variables and the (absent) context, and the mutation rejects in
    turn. The engine's other callbacks ([onMutate], [onSuccess],
    [onSettled]) and its [retry] option are not modelled: nothing is
    stated through [mutate] about a mutation that resolves. *)
Definition call_onError (options : gmap string slot) (e : exn) (variables : value)
  : M unit :=
  match options !! "onError" with
  | Some (SOnError f) => f e variables JUndefined
  | _ => ret tt
  end.

Definition mutate (options : gmap string slot) (variables : value) : M value :=
  match options !! "mutationFn" with
  | Some (SMutationFn fn) =>
      try_catch (fn variables)
        (fun e => call_onError options e variables >> throw e)
  | _ => throw (Failed "No mutationFn found")
  end.

(** React's [useEffect]: the effect runs after the first render, and after
    a later render when a dependency differs from the previous render's. *)
Definition deps_changed (previous : option deps) (now : deps) : bool :=
  match previous with
  | None => true
  | Some d => negb (bool_decide (d = now))
  end.

(** The renders of one component instance: at each, the arguments of the
    hook and what [useQuery] returned. *)
Fixpoint run_renders (previous : option deps)
    (renders : list (ServerQuery * QueryResult)) : M unit :=
  match renders with
  | [] => ret tt
  | (cfg, props) :: rest =>
      let '(effect, d) := useServerQuery cfg props in
      (if deps_changed previous d then effect else ret tt) >>
      run_renders (Some d) rest
  end.

(** ** The notions the properties are stated with *)

(** The field [k] of a non-null object [b], when the object contains it
    ([None] for every value that is not an object). *)
Definition object_field (b : value) (k : string) : option value :=
  match b with
  | JObj fields => fields !! k
  | JArr items =>
      if String.eqb k "length" then Some (JNum (num_of_nat (length items)))
      else match index_of_key k with
           | Some i => items !! i
           | None => None
           end
  | _ => None
  end.

(** The two outcomes of the decoder. *)
Definition success (payload : value) : Decoded :=
  {| decoded_data := payload; decoded_error := JUndefined |}.

Definition failure (payload : string) : Decoded :=
  {| decoded_data := JUndefined; decoded_error := JStr payload |}.

(** The Envelope Decoder as the specification words it: a string-valued
    [error] field first, else a [data] field, else no response. *)
Definition Envelope_decode (b : value) : Decoded :=
  match object_field b "error" with
  | Some (JStr s) => failure s
  | _ =>
      match object_field b "data" with
      | Some d => success d
      | None => failure "No response from the server"
      end
  end.

(** A payload of the declared type [{ error: string }], loosely: its
    [error] field, when present and not falsy, is a string. *)
Definition error_is_text (p : value) : Prop :=
  forall e, object_field p "error" = Some e ->
            to_boolean e = false \/ exists s, e = JStr s.

(** The request [buildQuery q] sends in the world [w]. *)
Definition request_of (w : world) (q : Query) : AxiosRequestConfig :=
  {| url := server_base_url w +:+ endpoint q; config_method := method q;
     config_data := data q; config_params := params q |}.

(** The errors a sequence of renders shows anew: those whose reference
    differs from the error of the render before. *)
Fixpoint occurrences (previous : option positive) (errors : list (option ErrorRef))
  : list ErrorRef :=
  match errors with
  | [] => []
  | e :: rest =>
      match e with
      | Some r => if bool_decide (previous = Some (addr r)) then [] else [r]
      | None => []
      end ++ occurrences (addr <$> e) rest
  end.

(** *** Invariants of the scanner and the parser

    The atoms the scanner emits and the value the parser completes are
    never [undefined]. *)




(** A computation that only writes to the console: its outcome and the
    lines it logs are the same in every world. *)
Definition logs_only {A : Type} (m : M A) : Prop :=
  exists (r : outcome A) (l : list (string * logged)),
    forall w, m w = (r, add_console l w).

(** *** Sample data *)

Definition answering (body : value)
  : list AxiosRequestConfig -> AxiosRequestConfig -> AxiosError + AxiosResponse :=
  fun _ _ => inr {| status := 200; response_data := body |}.

Definition failing (e : AxiosError)
  : list AxiosRequestConfig -> AxiosRequestConfig -> AxiosError + AxiosResponse :=
  fun _ _ => inl e.

Definition fresh_world
    (net : list AxiosRequestConfig -> AxiosRequestConfig -> AxiosError + AxiosResponse)
  : world :=
  {| server_base_url := "http://127.0.0.1:43211"; transport := net;
     sent := []; console := []; toasts := [] |}.

Definition declared_error (text : string) : value :=
  JObj {[ "error" := JStr text ]}.

(** Sample JSON texts are written with apostrophes for the double quotes. *)
Fixpoint dq (template : string) : string :=
  match template with
  | EmptyString => EmptyString
  | String c r => String (if Ascii.eqb c "'" then ascii_of_N 34 else c) (dq r)
  end.

Definition sample_query : Query :=
  {| endpoint := "/api/v1/library"; method := GET;
     data := JUndefined; params := JUndefined |}.

Definition rate_limited : AxiosError :=
  {| request :=
       JObj {[ "readyState" := JNum (num_of_Z 4);
               "status" := JNum (num_of_Z 429);
               "responseText" := JStr (dq "{'error':'Too many requests'}") ]};
     response :=
       Some {| status := 429;
               response_data := declared_error "Too many requests" |} |}.

Definition sample_mutation : ServerMutation :=
  {| mutation_endpoint := "/api/v1/anilist/list-entry";
     mutation_method := POST;
     mutation_options := ∅ |}.

Definition quiet_onError : exn -> value -> value -> M unit :=
  fun _ _ _ => console_log "mutation failed" (LogValue JNull).

Definition quiet_mutation : ServerMutation :=
  {| mutation_endpoint := "/api/v1/anilist/list-entry";
     mutation_method := POST;
     mutation_options := {[ "onError" := SOnError quiet_onError ]} |}.

Definition sample_mutation_request : AxiosRequestConfig :=
  {| url := "http://127.0.0.1:43211/api/v1/anilist/list-entry";
     config_method := POST; config_data := JNull;
     config_params := JUndefined |}.

Definition sample_server_query : ServerQuery :=
  {| query_endpoint := "/api/v1/library"; query_method := GET;
     query_params := JUndefined; query_data := JUndefined;
     muteError := None; query_options := ∅ |}.

Definition muted_server_query : ServerQuery :=
  {| query_endpoint := "/api/v1/library"; query_method := GET;
     query_params := JUndefined; query_data := JUndefined;
     muteError := Some true; query_options := ∅ |}.

Definition first_error : ErrorRef := {| addr := 1; target := rate_limited |}.

Definition second_error : ErrorRef :=
  {| addr := 2;
     target := {| request := JObj ∅;
                  response := Some {| status := 500;
                                      response_data := JStr " (500)" |} |} |}.

Definition no_error : QueryResult := {| error := None; isError := false |}.

Definition showing (e : ErrorRef) : QueryResult :=
  {| error := Some e; isError := true |}.

(** An error appears, persists over a render, clears, comes back, and is
    replaced by another. *)
Definition sample_errors : list QueryResult :=
  [no_error; showing first_error; showing first_error; no_error;
   showing first_error; showing second_error].

Definition sample_renders (cfg : ServerQuery) : list (ServerQuery * QueryResult) :=
  map (fun props => (cfg, props)) sample_errors.

(** A caller's own fetch function and options, an explicit [false] flag,
    and an error without a response. *)
Definition caller_queryFn : M value := ret (JStr "cached").

Definition custom_server_query : ServerQuery :=
  {| query_endpoint := "/api/v1/library"; query_method := GET;
     query_params := JUndefined; query_data := JUndefined;
     muteError := None;
     query_options := {[ "queryFn" := SQueryFn caller_queryFn;
                         "retry" := SValue (JBool false) ]} |}.

Definition unmuted_server_query : ServerQuery :=
  {| query_endpoint := "/api/v1/library"; query_method := GET;
     query_params := JUndefined; query_data := JUndefined;
     muteError := Some false; query_options := ∅ |}.

Definition network_down : ErrorRef :=
  {| addr := 3; target := {| request := JObj ∅; response := None |} |}.

(** An error whose body is not of the declared type: its [error] field
    holds a number. *)
Definition malformed_error : ErrorRef :=
  {| addr := 4;
     target := {| request := JObj ∅;
                  response :=
                    Some {| status := 400;
                            response_data :=
                              JObj {[ "error" := JNum (num_of_Z 42) ]} |} |} |}.

(** A caller's own mutation function. *)
Definition caller_mutationFn : value -> M value := fun variables => ret variables.

Definition custom_mutation : ServerMutation :=
  {| mutation_endpoint := "/api/v1/anilist/list-entry";
     mutation_method := POST;
     mutation_options := {[ "mutationFn" := SMutationFn caller_mutationFn ]} |}.

(** ** Numbers: the Number of a positive integer is positive *)












(** ** Strings: [includes] is the substring relation *)

Lemma prefix_spec (n s : string) :
  String.prefix n s = true <-> exists b, s = n +:+ b.
Proof.
  revert s. induction n as [|c n IH]; intros s.
  - split; [intros _; now exists s | intros _; now destruct s].
  - destruct s as [|c' s]; cbn;
      [split; [discriminate | intros [b Hb]; discriminate]|].
    destruct (ascii_dec c c') as [->|Hne].
    + rewrite IH. split; intros [b Hb]; exists b; [now rewrite Hb | now inversion Hb].
    + split; [discriminate | intros [b Hb]; inversion Hb; congruence].
Qed.

Lemma str_includes_spec (s n : string) :
  str_includes s n = true <-> exists a b, s = a +:+ n +:+ b.
Proof.
  induction s as [|c s IH]; cbn [str_includes]; rewrite orb_true_iff, prefix_spec.
  - split.
    + intros [[b Hb]|H]; [now exists EmptyString, b | discriminate].
    + intros ([|c a] & b & H); [left; now exists b | discriminate].
  - rewrite IH. split.
    + intros [[b Hb]|(a & b & H)]; [now exists EmptyString, b|].
      exists (String c a), b. cbn. now rewrite H.
    + intros ([|c' a] & b & H); [left; now exists b|].
      right. exists a, b. now inversion H.
Qed.

Lemma str_includes_nonempty (s n : string) :
  n <> EmptyString -> str_includes s n = true -> s <> EmptyString.
Proof.
  intros Hn H ->. cbn in H. rewrite orb_false_r in H.
  destruct n; [now destruct Hn | discriminate].
Qed.

(** ** [JSON.parse] never yields [undefined] *)








(** ** Checks of the runtime on sample inputs *)

Example num_to_string_samples :
  map (fun d => num_to_string (num_of_decimal false (fst d) (snd d)))
    [(1%N, -1); (5%N, 0); (1%N, 21); (123456789012345680000%N, 0);
     (5%N, -324); (17976931348623157%N, 292); (1%N, -7); (15%N, -1);
     (9007199254740993%N, 0); (1%N, 400)]
  = ["0.1"; "5"; "1e+21"; "123456789012345680000"; "5e-324";
     "1.7976931348623157e+308"; "1e-7"; "1.5"; "9007199254740992";
     "Infinity"].
Proof. vm_compute. reflexivity. Qed.

Example num_to_string_sum :
  num_to_string (SFadd prec emax (num_of_decimal false 1 (-1))
                   (num_of_decimal false 2 (-1)))
  = "0.30000000000000004".
Proof. vm_compute. reflexivity. Qed.

Example string_to_number_samples :
  map (fun s => num_to_string (string_to_number s))
    [EmptyString; " 12 "; "0x10"; "-0x10"; "Infinity"; "infinity"; ".5";
     "5."; "."; "1e3"; "12px"; "1e-400"]
  = ["0"; "12"; "16"; "NaN"; "Infinity"; "NaN"; "0.5"; "5"; "NaN"; "1000";
     "NaN"; "0"].
Proof. vm_compute. reflexivity. Qed.

Example parse_text_accepts :
  parse_text (dq " { 'a' : [1, 2.5e1, true, null, 'xA\n'], 'a' : {} } ")
  = Some (JObj {[ "a" := JObj ∅ ]})
  /\ parse_text (dq "[1,{'k':[]},'s']")
     = Some (JArr [JNum (num_of_Z 1); JObj {[ "k" := JArr [] ]}; JStr "s"])
  /\ parse_text (dq "'é😀'") = Some (JStr "é😀").
Proof. repeat split; vm_compute; reflexivity. Qed.

Example parse_text_rejects :
  map parse_text
    [EmptyString; "not json"; "01"; "1."; "+1"; "[1,]"; "[1 2]"; "nul";
     "true1"; dq "{'a':1,}"; dq "{a:1}"; dq "'abc"; "1 2"; "]"]
  = repeat None 14.
Proof. vm_compute. reflexivity. Qed.

Example to_string_samples :
  to_string (JArr [JNum (num_of_Z 1); JNull; JUndefined; JStr "a";
                   JArr [JBool true; JArr []]; JObj ∅])
  = Val "1,,,a,true,,[object Object]"
  /\ to_string (JObj {[ "toString" := JNull ]}) = Err TypeError.
Proof. split; vm_compute; reflexivity. Qed.

Example gt_zero_samples :
  map gt_zero [JStr " 5 "; JStr "0x0"; JArr [JNum (num_of_Z 5)]; JObj ∅;
               JNull; JBool true; JUndefined]
  = [Val true; Val false; Val true; Val false; Val false; Val true; Val false].
Proof. vm_compute. reflexivity. Qed.

(** ** The envelope decoder *)

(** The decoder computes the specification's three-way classification, and
    never raises. *)
Lemma handleResponse_decode (b : value) :
  handleResponse b = Val (Envelope_decode b).
Proof.
  destruct b as [| |b|n|s|items|fields]; try reflexivity.
  unfold handleResponse, Envelope_decode, and_then, type_is, res_bind.
  cbn [typeof to_boolean has_property get object_field].
  destruct (fields !! "error") as [e|] eqn:He; cbn.
  - destruct e; cbn; try reflexivity; destruct (fields !! "data"); reflexivity.
  - destruct (fields !! "data"); reflexivity.
Qed.

Lemma Envelope_decode_error (b : value) (s : string) :
  object_field b "error" = Some (JStr s) -> Envelope_decode b = failure s.
Proof. intros H. unfold Envelope_decode. now rewrite H. Qed.

Lemma Envelope_decode_no_error (b : value) :
  (forall s, object_field b "error" <> Some (JStr s)) ->
  Envelope_decode b =
    match object_field b "data" with
    | Some d => success d
    | None => failure "No response from the server"
    end.
Proof.
  intros H. unfold Envelope_decode.
  destruct (object_field b "error") as [e|]; [|reflexivity].
  destruct e; try reflexivity. now destruct (H s).
Qed.

(** C2. For every decoded body [b]: failure with [b.error] when [b] is a
    non-null object whose [error] field is a string; otherwise success with
    [b.data] when [b] is a non-null object containing a [data] field,
    whatever its value; otherwise failure with the fixed payload. *)
Theorem handleResponse_envelope :
  (forall b s,
      object_field b "error" = Some (JStr s) ->
      handleResponse b = Val (failure s))
  /\ (forall b d,
         (forall s, object_field b "error" <> Some (JStr s)) ->
         object_field b "data" = Some d ->
         handleResponse b = Val (success d))
  /\ (forall b,
         (forall s, object_field b "error" <> Some (JStr s)) ->
         object_field b "data" = None ->
         handleResponse b = Val (failure "No response from the server")).
Proof.
  repeat split.
  - intros b s H. now rewrite handleResponse_decode, (Envelope_decode_error b s).
  - intros b d Hne Hd.
    now rewrite handleResponse_decode, Envelope_decode_no_error, Hd.
  - intros b Hne Hd.
    now rewrite handleResponse_decode, Envelope_decode_no_error, Hd.
Qed.

Lemma handleResponse_envelope_witness :
  handleResponse (declared_error "boom") = Val (failure "boom")
  /\ handleResponse (JObj {[ "data" := JArr [JNull; JObj ∅] ]})
     = Val (success (JArr [JNull; JObj ∅]))
  /\ handleResponse (JStr "plain string")
     = Val (failure "No response from the server").
Proof.
  destruct handleResponse_envelope as (H1 & H2 & H3).
  split; [|split].
  - apply H1. reflexivity.
  - apply H2; [intros s H; vm_compute in H; discriminate | reflexivity].
  - apply H3; [intros s H; vm_compute in H; discriminate | reflexivity].
Defined.

(** C10. A declared error wins over a payload that is present as well. *)
Theorem handleResponse_error_precedence (b : value) (s : string) (d : value) :
  object_field b "error" = Some (JStr s) ->
  object_field b "data" = Some d ->
  handleResponse b = Val (failure s).
Proof.
  intros He _. now rewrite handleResponse_decode, (Envelope_decode_error b s).
Qed.

Lemma handleResponse_error_precedence_witness :
  handleResponse (JObj {[ "error" := JStr "quota"; "data" := JBool true ]})
  = Val (failure "quota").
Proof.
  apply (handleResponse_error_precedence _ "quota" (JBool true)); reflexivity.
Defined.

(** The decoder on the sample bodies of the specification. *)
Example handleResponse_samples :
  map handleResponse
    [JObj {[ "data" := JNull ]}; JObj {[ "data" := JArr [JObj ∅] ]};
     declared_error "s"; JObj ∅; JNum (num_of_Z 42); JNull;
     JStr "plain string"; JArr [JNull]]
  = [Val (success JNull); Val (success (JArr [JObj ∅]));
     Val (failure "s")] ++ repeat (Val (failure "No response from the server")) 5.
Proof. vm_compute. reflexivity. Qed.

(** ** The error classifier *)

Lemma add_console_nil (w : world) : add_console [] w = w.
Proof. destruct w. unfold add_console; cbn. now rewrite app_nil_r. Qed.

Lemma add_console_app (l l' : list (string * logged)) (w : world) :
  add_console l' (add_console l w) = add_console (l ++ l') w.
Proof. unfold add_console; cbn. now rewrite app_assoc. Qed.

Lemma logs_only_ret {A : Type} (a : A) : logs_only (ret a).
Proof. exists (Ok a), []. intros w. unfold ret. now rewrite add_console_nil. Qed.

Lemma logs_only_lift {A : Type} (r : res A) : logs_only (lift r).
Proof.
  exists (match r with Val a => Ok a | Err e => Throw (Native e) end), [].
  intros w. unfold lift. now rewrite add_console_nil.
Qed.

Lemma logs_only_console_log (label : string) (x : logged) :
  logs_only (console_log label x).
Proof. now exists (Ok tt), [(label, x)]. Qed.

Lemma logs_only_bind {A B : Type} (m : M A) (k : A -> M B) :
  logs_only m -> (forall a, logs_only (k a)) -> logs_only (bind m k).
Proof.
  intros (r & l & Hm) Hk. destruct r as [a|e].
  - destruct (Hk a) as (r' & l' & Hka). exists r', (l ++ l'). intros w.
    unfold bind. now rewrite Hm, Hka, add_console_app.
  - exists (Throw e), l. intros w. unfold bind. now rewrite Hm.
Qed.

Lemma logs_only_try_catch {A : Type} (body : M A) (handler : exn -> M A) :
  logs_only body -> (forall e, logs_only (handler e)) ->
  logs_only (try_catch body handler).
Proof.
  intros (r & l & Hm) Hh. destruct r as [a|e].
  - exists (Ok a), l. intros w. unfold try_catch. now rewrite Hm.
  - destruct (Hh e) as (r' & l' & He). exists r', (l ++ l'). intros w.
    unfold try_catch. now rewrite Hm, He, add_console_app.
Qed.

Create HintDb logs.
#[local] Hint Resolve logs_only_ret logs_only_lift logs_only_console_log : logs.

Ltac logs_only_step :=
  match goal with
  | |- logs_only (if ?b then _ else _) => destruct b
  | |- logs_only (bind _ _) => apply logs_only_bind; [|intros ?]
  | |- logs_only (try_catch _ _) => apply logs_only_try_catch; [|intros ?]
  | |- logs_only _ => solve [auto with logs]
  end.

(** The classifier reads nothing of the world and writes only console
    lines. *)
Lemma handleError_logs_only (data : value) : logs_only (handleError data).
Proof. unfold handleError. repeat logs_only_step. Qed.

Lemma typeof_not_string (p : value) :
  typeof p <> "string" -> String.eqb (typeof p) "string" = false.
Proof. intros H. now apply String.eqb_neq. Qed.

(** [data?.error] is the [error] field, or [undefined]. *)
Lemma opt_get_error (p : value) :
  opt_get p "error" = Val (default JUndefined (object_field p "error")).
Proof. destruct p; reflexivity. Qed.



(** The classifier on a payload whose [error] is a non-empty string free
    of the rate-limit text: everything from the [try] block on. *)
Lemma handleError_text (p : value) (s : string) (w : world) :
  typeof p <> "string" ->
  object_field p "error" = Some (JStr s) ->
  s <> EmptyString ->
  str_includes s "Too many requests" = false ->
  handleError p w =
    match parse_text s with
    | None => (Ok ("Error: " +:+ s), w)
    | Some v =>
        (Ok match has_first_message v with
            | Val true =>
                match res_bind (first_message v) to_string with
                | Val t => "Anilist error: " +:+ t
                | Err _ => "Error: " +:+ s
                end
            | Val false => "Anilist error"
            | Err _ => "Error: " +:+ s
            end,
         add_console [("Anilist error", LogValue v)] w)
    end.
Proof.
  intros Hp He Hs Hi. unfold handleError.
  assert (Hg : opt_get p "error" = Val (JStr s))
    by (rewrite opt_get_error, He; reflexivity).
  rewrite (typeof_not_string p Hp), Hg.
  unfold bind at 1. cbn [lift to_boolean].
  destruct (String.eqb_spec s EmptyString) as [->|_]; [now destruct Hs|].
  cbn [negb].
  unfold bind at 1. cbn [lift call_includes]. rewrite Hi.
  unfold try_catch, bind, lift, console_log, JSON_parse, concat, ret.
  cbn [to_string res_bind].
  destruct (parse_text s) as [v|]; [|reflexivity].
  destruct (has_first_message v) as [[|]|e]; try reflexivity.
  destruct (first_message v) as [m|e]; [|reflexivity].
  cbn [res_bind]. destruct (to_string m); reflexivity.
Qed.

Lemma handleError_string (s : string) (w : world) :
  handleError (JStr s) w = (Ok ("Server Error" +:+ s), w).
Proof. reflexivity. Qed.

Lemma handleError_unknown (p : value) (w : world) :
  typeof p <> "string" ->
  to_boolean (default JUndefined (object_field p "error")) = false ->
  handleError p w = (Ok "Unknown error", w).
Proof.
  intros Hp He. unfold handleError.
  rewrite (typeof_not_string p Hp), opt_get_error.
  unfold bind, lift. now rewrite He.
Qed.

Lemma handleError_rate_limit (p : value) (s : string) (w : world) :
  typeof p <> "string" ->
  object_field p "error" = Some (JStr s) ->
  str_includes s "Too many requests" = true ->
  handleError p w = (Ok rate_limit_message, w).
Proof.
  intros Hp He Hi. unfold handleError.
  assert (Hg : opt_get p "error" = Val (JStr s))
    by (rewrite opt_get_error, He; reflexivity).
  rewrite (typeof_not_string p Hp), Hg.
  unfold bind at 1. cbn [lift to_boolean].
  destruct (String.eqb_spec s EmptyString) as [->|_]; [discriminate|].
  cbn [negb]. unfold bind at 1. cbn [lift call_includes]. now rewrite Hi.
Qed.

(** C5. The first three steps of the classifier, in order: a string
    payload is prefixed with ["Server Error"], without a separator; a
    payload that is not a string and whose [error] field is absent or the
    empty string gives ["Unknown error"]; an [error] string containing
    ["Too many requests"] gives the fixed rate-limit message. *)
Theorem handleError_first_steps :
  (forall s w, handleError (JStr s) w = (Ok ("Server Error" +:+ s), w))
  /\ (forall p w,
         typeof p <> "string" ->
         object_field p "error" = None
         \/ object_field p "error" = Some (JStr EmptyString) ->
         handleError p w = (Ok "Unknown error", w))
  /\ (forall p s w,
         typeof p <> "string" ->
         object_field p "error" = Some (JStr s) ->
         (exists a b, s = a +:+ "Too many requests" +:+ b) ->
         handleError p w
         = (Ok "Anilist: Too many requests, please wait a moment and try again",
            w)).
Proof.
  split; [exact handleError_string|]. split.
  - intros p w Hp [H|H]; apply handleError_unknown; try assumption;
      now rewrite H.
  - intros p s w Hp He Hs.
    apply (handleError_rate_limit p s w Hp He). now apply str_includes_spec.
Qed.

Lemma handleError_first_steps_witness :
  handleError (JObj ∅) (fresh_world (answering JNull))
  = (Ok "Unknown error", fresh_world (answering JNull))
  /\ handleError (declared_error "Too many requests from X")
       (fresh_world (answering JNull))
     = (Ok "Anilist: Too many requests, please wait a moment and try again",
        fresh_world (answering JNull)).
Proof.
  destruct handleError_first_steps as (_ & H2 & H3). split.
  - apply H2; [discriminate | left; reflexivity].
  - apply (H3 _ "Too many requests from X");
      [discriminate | reflexivity | now exists EmptyString, " from X"].
Defined.






Lemma error_is_text_primitive (p : value) :
  (forall fields, p <> JObj fields) -> error_is_text p.
Proof.
  intros Hp e He. left. destruct p; try discriminate.
  now destruct (Hp fields).
Qed.

Lemma error_is_text_declared (s : string) : error_is_text (declared_error s).
Proof.
  intros e He. cbn in He. rewrite lookup_singleton_eq in He.
  inversion He. right. now exists s.
Qed.

(** On the declared payloads the classifier returns a text that is not
    empty. *)
Lemma handleError_returns (p : value) (w : world) :
  error_is_text p ->
  exists t l, handleError p w = (Ok t, add_console l w) /\ t <> EmptyString.
Proof.
  intros Hp.
  destruct (String.eqb_spec (typeof p) "string") as [Ht|Ht].
  { destruct p; try discriminate.
    exists ("Server Error" +:+ s), []. rewrite add_console_nil. now split. }
  destruct (to_boolean (default JUndefined (object_field p "error"))) eqn:Hb.
  2:{ exists "Unknown error", []. rewrite add_console_nil.
      split; [now apply handleError_unknown | discriminate]. }
  destruct (object_field p "error") as [e|] eqn:He; [|discriminate].
  destruct (Hp e He) as [Hf|[s ->]]; [cbn in Hb; congruence|].
  destruct (str_includes s "Too many requests") eqn:Hi.
  { exists rate_limit_message, []. rewrite add_console_nil.
    split; [now apply (handleError_rate_limit p s) | discriminate]. }
  assert (Hs : s <> EmptyString) by (intros ->; discriminate).
  rewrite (handleError_text p s w Ht He Hs Hi).
  destruct (parse_text s) as [v|].
  - eexists _, _. split; [reflexivity|].
    destruct (has_first_message v) as [[|]|]; try discriminate.
    destruct (res_bind (first_message v) to_string); discriminate.
  - eexists _, []. rewrite add_console_nil. split; [reflexivity | discriminate].
Qed.

(** C4, as the code has it. On every input whose [error] field is absent,
    falsy or a string (so on every string, number, [null] and [undefined])
    the classifier returns, and its text is not empty. *)
Theorem handleError_total_on_declared (p : value) (w : world) :
  error_is_text p ->
  exists t w', handleError p w = (Ok t, w') /\ t <> EmptyString.
Proof.
  intros Hp. destruct (handleError_returns p w Hp) as (t & l & H & Ht).
  now exists t, (add_console l w).
Qed.

Lemma handleError_total_on_declared_witness :
  exists t w',
    handleError JNull (fresh_world (answering JNull)) = (Ok t, w')
    /\ t <> EmptyString.
Proof.
  apply handleError_total_on_declared.
  intros e He. cbn in He. discriminate.
Defined.

(** C4, as stated, fails: an [error] field holding a number has no
    [includes] method, and the call raises outside the [try] block. *)
Lemma handleError_raises_on_number :
  handleError (JObj {[ "error" := JNum (num_of_Z 42) ]})
    (fresh_world (answering JNull))
  = (Throw (Native TypeError), fresh_world (answering JNull)).
Proof. reflexivity. Qed.

(** C9. The classifier is deterministic: its outcome is the same in every
    world, and the same again when it runs a second time. *)
Theorem handleError_deterministic (p : value) (w1 w2 : world) :
  fst (handleError p w1) = fst (handleError p w2)
  /\ fst (handleError p (snd (handleError p w1))) = fst (handleError p w1).
Proof.
  destruct (handleError_logs_only p) as (r & l & H).
  now rewrite !H.
Qed.

(** The classifier on the sample inputs of the specification. *)
Example handleError_samples :
  map (fun p => fst (handleError p (fresh_world (answering JNull))))
    [JStr "raw string";
     declared_error "Too many requests from X";
     declared_error (dq "{'graphqlErrors':[{'message':'bad query'}]}");
     declared_error (dq "{'graphqlErrors':[]}");
     declared_error "not json";
     JObj ∅]
  = [Ok "Server Errorraw string";
     Ok "Anilist: Too many requests, please wait a moment and try again";
     Ok "Anilist error: bad query";
     Ok "Anilist error";
     Ok "Error: not json";
     Ok "Unknown error"].
Proof. vm_compute. reflexivity. Qed.

(** Messages that are not strings, and a list that is not an array. *)
Example handleError_coercions :
  map (fun text => fst (handleError (declared_error (dq text))
                          (fresh_world (answering JNull))))
    ["{'graphqlErrors':[{'message':5}]}";
     "{'graphqlErrors':[{'message':[1,2]}]}";
     "{'graphqlErrors':{'length':' 0x10 ','0':{'message':true}}}";
     "{'graphqlErrors':'abc'}";
     "{'graphqlErrors':[null]}";
     "{'graphqlErrors':[{'message':{'toString':1}}]}"]
  = [Ok "Anilist error: 5";
     Ok "Anilist error: 1,2";
     Ok "Anilist error: true";
     Ok "Anilist error";
     Ok "Anilist error";
     Ok ("Error: " +:+ dq "{'graphqlErrors':[{'message':{'toString':1}}]}")].
Proof. vm_compute. reflexivity. Qed.

(** ** The request executor *)

Lemma buildQuery_resolved (q : Query) (w : world) (resp : AxiosResponse) :
  transport w (sent w) (request_of w q) = inr resp ->
  buildQuery q w
  = (Ok (decoded_data (Envelope_decode (response_data resp))),
     add_sent [request_of w q] w).
Proof.
  intros H. unfold buildQuery, bind, getServerBaseUrl, axios.
  fold (request_of w q). rewrite H.
  unfold lift. now rewrite handleResponse_decode.
Qed.

Lemma buildQuery_rejected (q : Query) (w : world) (e : AxiosError) :
  transport w (sent w) (request_of w q) = inl e ->
  buildQuery q w = (Throw (Rejected e), add_sent [request_of w q] w).
Proof.
  intros H. unfold buildQuery, bind, getServerBaseUrl, axios.
  fold (request_of w q). now rewrite H.
Qed.

(** C1, as the code has it. When the transport completes, [buildQuery]
    returns normally in every case: the [data] slot of the decoder's
    result, which is the payload on success and [undefined] on failure;
    the failure payload is dropped. *)
Theorem buildQuery_returns_data_slot (q : Query) (w : world) (resp : AxiosResponse) :
  transport w (sent w) (request_of w q) = inr resp ->
  buildQuery q w
  = (Ok (decoded_data (Envelope_decode (response_data resp))),
     add_sent [request_of w q] w)
  /\ (forall d, Envelope_decode (response_data resp) = success d ->
                fst (buildQuery q w) = Ok d)
  /\ (forall s, Envelope_decode (response_data resp) = failure s ->
                fst (buildQuery q w) = Ok JUndefined).
Proof.
  intros H. rewrite (buildQuery_resolved q w resp H).
  split; [reflexivity|]. split; intros x Hx; now rewrite Hx.
Qed.

Lemma buildQuery_returns_data_slot_witness :
  fst (buildQuery sample_query
         (fresh_world (answering (JObj {[ "data" := JStr "ok" ]}))))
  = Ok (JStr "ok").
Proof.
  refine (proj1 (proj2 (buildQuery_returns_data_slot sample_query
            (fresh_world (answering (JObj {[ "data" := JStr "ok" ]})))
            {| status := 200; response_data := JObj {[ "data" := JStr "ok" ]} |}
            _)) (JStr "ok") _); reflexivity.
Defined.

(** C1, as stated, fails: on a declared [{ error }] envelope the decoder
    reports failure and [buildQuery] still returns normally. *)
Lemma buildQuery_swallows_failure :
  handleResponse (declared_error "boom") = Val (failure "boom")
  /\ buildQuery sample_query (fresh_world (answering (declared_error "boom")))
     = (Ok JUndefined,
        add_sent [request_of (fresh_world (answering (declared_error "boom")))
                    sample_query]
          (fresh_world (answering (declared_error "boom")))).
Proof. split; reflexivity. Qed.

(** ** The mutation wrapper *)

Lemma spread_lookup_over (base over : gmap string slot) (k : string) (s : slot) :
  over !! k = Some s -> spread base over !! k = Some s.
Proof. intros H. unfold spread. now apply lookup_union_Some_l. Qed.

Lemma spread_lookup_base (base over : gmap string slot) (k : string) :
  over !! k = None -> spread base over !! k = base !! k.
Proof. intros H. unfold spread. now apply lookup_union_r. Qed.

(** Without a caller's [onError], the slot holds the default. *)
Lemma useServerMutation_default_onError (cfg : ServerMutation) :
  mutation_options cfg !! "onError" = None ->
  useServerMutation cfg !! "onError"
  = Some (SOnError (fun error _ _ => mutation_onError error)).
Proof.
  intros H. unfold useServerMutation. now rewrite spread_lookup_base.
Qed.

(** The default [onError] classifies [error.request?.data]: the response
    of the error plays no part. *)
Lemma mutation_onError_request (e1 e2 : AxiosError) (w : world) :
  request e1 = request e2 ->
  mutation_onError (Rejected e1) w = mutation_onError (Rejected e2) w.
Proof. intros H. unfold mutation_onError, error_request. now rewrite H. Qed.

(** With the wrapper's defaults, a rejected request whose request object
    has no [data] is notified as ["Unknown error"], whatever the response
    of the error holds. *)
Lemma mutation_default_unknown
    (cfg : ServerMutation) (variables : value) (e : AxiosError) (w : world) :
  mutation_options cfg !! "onError" = None ->
  mutation_options cfg !! "mutationFn" = None ->
  transport w (sent w)
    (request_of w {| endpoint := mutation_endpoint cfg;
                     method := mutation_method cfg;
                     data := variables; params := JUndefined |}) = inl e ->
  opt_get (request e) "data" = Val JUndefined ->
  mutate (useServerMutation cfg) variables w
  = (Throw (Rejected e),
     add_toasts ["Unknown error"]
       (add_sent [request_of w {| endpoint := mutation_endpoint cfg;
                                  method := mutation_method cfg;
                                  data := variables; params := JUndefined |}]
          w)).
Proof.
  intros Herr Hfn Hnet Hdata. unfold mutate, call_onError.
  rewrite (useServerMutation_default_onError cfg Herr).
  unfold useServerMutation. rewrite spread_lookup_base by assumption.
  rewrite lookup_insert_ne by discriminate. rewrite lookup_singleton_eq.
  unfold try_catch, mutation_mutationFn.
  rewrite (buildQuery_rejected _ w e Hnet).
  unfold bind, mutation_onError, error_request. rewrite Hdata.
  reflexivity.
Qed.

(** C6 on the code: the transport fails with the body
    [{ error: "Too many requests" }]; the notifier is called once, with
    ["Unknown error"], because the default [onError] classifies
    [error.request?.data], which the request object does not have, and
    not the response body, whose classification is the rate-limit
    message. *)
Theorem mutation_notifies_unknown_error :
  mutate (useServerMutation sample_mutation) JNull
    (fresh_world (failing rate_limited))
  = (Throw (Rejected rate_limited),
     add_toasts ["Unknown error"]
       (add_sent [sample_mutation_request] (fresh_world (failing rate_limited))))
  /\ fst (handleError (error_response_data (Some first_error))
            (fresh_world (failing rate_limited)))
     = Ok "Anilist: Too many requests, please wait a moment and try again".
Proof. split; reflexivity. Qed.

(** C7. The caller's options are spread after the defaults: a caller's
    [onError] takes the slot, every slot the caller supplies is passed
    through unchanged, and when the mutation fails the caller's callback
    is all that runs, so the default notification does not happen. *)
Theorem useServerMutation_caller_onError
    (cfg : ServerMutation) (f : exn -> value -> value -> M unit) :
  mutation_options cfg !! "onError" = Some (SOnError f) ->
  useServerMutation cfg !! "onError" = Some (SOnError f)
  /\ (forall k s, mutation_options cfg !! k = Some s ->
                  useServerMutation cfg !! k = Some s)
  /\ (forall fn variables e w w1,
         useServerMutation cfg !! "mutationFn" = Some (SMutationFn fn) ->
         fn variables w = (Throw e, w1) ->
         mutate (useServerMutation cfg) variables w
         = (f e variables JUndefined >> throw e) w1).
Proof.
  intros Hf.
  assert (Hk : forall k s, mutation_options cfg !! k = Some s ->
                           useServerMutation cfg !! k = Some s)
    by (intros k s H; now apply spread_lookup_over).
  split; [now apply Hk|]. split; [exact Hk|].
  intros fn variables e w w1 Hfn Hrun.
  unfold mutate, try_catch, call_onError.
  now rewrite Hfn, Hrun, (Hk _ _ Hf).
Qed.

Lemma useServerMutation_caller_onError_witness :
  mutate (useServerMutation quiet_mutation) JNull
    (fresh_world (failing rate_limited))
  = (Throw (Rejected rate_limited),
     add_console [("mutation failed", LogValue JNull)]
       (add_sent [sample_mutation_request] (fresh_world (failing rate_limited)))).
Proof.
  destruct (useServerMutation_caller_onError quiet_mutation quiet_onError)
    as (_ & _ & H); [reflexivity|].
  rewrite (H (mutation_mutationFn quiet_mutation) JNull (Rejected rate_limited)
             (fresh_world (failing rate_limited))
             (add_sent [sample_mutation_request]
                (fresh_world (failing rate_limited))));
    reflexivity.
Defined.

(** ** The query wrapper *)

(** On a declared payload the classifier's text is one and the same in
    every world. *)
Lemma handleError_classifies (p : value) :
  error_is_text p ->
  exists t l, forall w, handleError p w = (Ok t, add_console l w).
Proof.
  intros Hp. destruct (handleError_logs_only p) as (r & l & H).
  destruct (handleError_returns p (fresh_world (answering JNull)) Hp)
    as (t & l' & Ht & _).
  rewrite H in Ht. assert (Hr : r = Ok t) by congruence. subst r.
  now exists t, l.
Qed.

Lemma query_effect_muted (cfg : ServerQuery) (props : QueryResult) :
  muteError cfg = Some true -> query_effect cfg props = ret tt.
Proof. intros H. unfold query_effect. now rewrite H. Qed.

Lemma run_renders_muted (renders : list (ServerQuery * QueryResult)) :
  forall previous w,
    Forall (fun r => muteError (fst r) = Some true) renders ->
    run_renders previous renders w = (Ok tt, w).
Proof.
  induction renders as [|[cfg props] rest IH]; intros previous w H;
    [reflexivity|].
  inversion H as [|? ? Hm Hrest]; subst. cbn [fst] in Hm.
  cbn [run_renders useServerQuery]. rewrite (query_effect_muted _ _ Hm).
  unfold bind. destruct (deps_changed previous (query_deps cfg props));
    cbn [ret]; now apply IH.
Qed.

Lemma query_effect_idle (cfg : ServerQuery) (props : QueryResult) :
  isError props = false -> query_effect cfg props = ret tt.
Proof. intros H. unfold query_effect. now rewrite H, andb_false_r. Qed.

Lemma query_effect_fires (cfg : ServerQuery) (props : QueryResult) (w : world) :
  truthy_flag (muteError cfg) = false ->
  isError props = true ->
  error_is_text (error_response_data (error props)) ->
  exists t w',
    query_effect cfg props w = (Ok tt, w')
    /\ toasts w' = toasts w ++ [t]
    /\ forall w0, fst (handleError (error_response_data (error props)) w0) = Ok t.
Proof.
  intros Hm He Hp. destruct (handleError_classifies _ Hp) as (t & l & H).
  exists t. eexists. unfold query_effect. rewrite Hm, He. cbn [negb andb].
  unfold bind, console_log, toast_error. rewrite H.
  split; [reflexivity|]. split; [reflexivity|].
  intros w0. now rewrite H.
Qed.

(** The renders of an instance that is not muted: the flag is [m], absent
    or false, at every render. *)
Section Unmuted.

Variable m : option bool.
Hypothesis unmuted : truthy_flag m = false.

Lemma run_renders_unmuted (renders : list (ServerQuery * QueryResult)) :
  forall previous a w,
    (previous = None /\ a = None)
    \/ previous = Some (a, bool_decide (is_Some a), m) ->
    Forall (fun r =>
              muteError (fst r) = m
              /\ (isError (snd r) = true <-> error (snd r) <> None)
              /\ error_is_text (error_response_data (error (snd r))))
      renders ->
    exists w' msgs,
      run_renders previous renders w = (Ok tt, w')
      /\ toasts w' = toasts w ++ msgs
      /\ Forall2
           (fun r t =>
              forall w0,
                fst (handleError (error_response_data (Some r)) w0) = Ok t)
           (occurrences a (map (fun r => error (snd r)) renders)) msgs.
Proof.
  induction renders as [|[cfg props] rest IH]; intros previous a w Hprev H.
  { exists w, []. cbn. rewrite app_nil_r. repeat split. constructor. }
  inversion H as [|? ? Hhead Hrest]; subst.
  destruct Hhead as (Hmute & Hinv & Hp). cbn [fst snd] in Hmute, Hinv, Hp.
  cbn [run_renders useServerQuery map snd occurrences].
  destruct (error props) as [r|] eqn:He.
  - (* an error is shown *)
    assert (Hi : isError props = true) by (apply Hinv; discriminate).
    assert (Hd : query_deps cfg props = (Some (addr r), true, m))
      by (unfold query_deps; now rewrite He, Hi, Hmute).
    rewrite Hd.
    assert (Hnext : Some (Some (addr r), true, m)
                    = Some (Some (addr r), bool_decide (is_Some (Some (addr r))),
                            m)) by reflexivity.
    destruct (bool_decide (a = Some (addr r))) eqn:Ha.
    + (* the same reference as at the render before *)
      apply bool_decide_eq_true in Ha. subst a.
      destruct Hprev as [[_ Hx]|Hprev]; [discriminate|]. subst previous.
      unfold bind at 1.
      assert (Hc : deps_changed
                     (Some (Some (addr r), bool_decide (is_Some (Some (addr r))),
                            m))
                     (Some (addr r), true, m) = false)
        by (unfold deps_changed; now rewrite bool_decide_eq_true_2).
      rewrite Hc. cbn [ret].
      destruct (IH _ (Some (addr r)) w (or_intror Hnext) Hrest)
        as (w' & msgs & Hrun & Ht & Hf).
      exists w', msgs. cbn [fmap option_fmap option_map app].
      repeat split; assumption.
    + (* a new reference *)
      apply bool_decide_eq_false in Ha.
      assert (Hc : deps_changed previous (Some (addr r), true, m) = true).
      { destruct Hprev as [[-> _]| ->]; [reflexivity|].
        unfold deps_changed. rewrite bool_decide_eq_false_2; [reflexivity|].
        intros Heq. inversion Heq. contradiction. }
      rewrite Hc. unfold bind at 1.
      destruct (query_effect_fires cfg props w) as (t & w1 & Hq & Ht1 & Hcls);
        [now rewrite Hmute | assumption | now rewrite He |].
      rewrite Hq.
      destruct (IH _ (Some (addr r)) w1 (or_intror Hnext) Hrest)
        as (w' & msgs & Hrun & Ht & Hf).
      exists w', (t :: msgs). cbn [fmap option_fmap option_map app].
      split; [assumption|]. split.
      * rewrite Ht, Ht1, <- app_assoc. reflexivity.
      * constructor; [|assumption]. now rewrite He in Hcls.
  - (* no error is shown *)
    assert (Hi : isError props = false).
    { destruct (isError props) eqn:Hi; [|reflexivity].
      now destruct (proj1 Hinv eq_refl). }
    rewrite (query_effect_idle _ _ Hi).
    assert (Hd : query_deps cfg props = (None, false, m))
      by (unfold query_deps; now rewrite He, Hi, Hmute).
    rewrite Hd. unfold bind at 1.
    assert (Hnext : Some (@None positive, false, m)
                    = Some (None, bool_decide (is_Some (@None positive)),
                            m)) by reflexivity.
    destruct (IH _ None
                (snd ((if deps_changed previous (None, false, m)
                       then ret tt else ret tt) w))
                (or_intror Hnext) Hrest)
      as (w' & msgs & Hrun & Ht & Hf).
    destruct (deps_changed previous (None, false, m));
      cbn [ret snd] in *; exists w', msgs; repeat split; assumption.
Qed.

End Unmuted.

(** C8, as the code has it. With the mute flag set the notifier is never
    called, however many renders show an error. Without it (the flag
    absent or false, and the same at every render, the cache reporting
    [isError] exactly when it holds an error, the error bodies of the
    declared type: an [error] field that is absent, falsy or a string) the
    notifier is called once for each render whose error reference differs
    from that of the render before, with the classified message of that
    error, and not again while the same error persists. *)
Theorem useServerQuery_notifications
    (renders : list (ServerQuery * QueryResult)) (w : world) :
  (Forall (fun r => muteError (fst r) = Some true) renders ->
   run_renders None renders w = (Ok tt, w))
  /\ (forall m,
         truthy_flag m = false ->
         Forall (fun r =>
                   muteError (fst r) = m
                   /\ (isError (snd r) = true <-> error (snd r) <> None)
                   /\ error_is_text (error_response_data (error (snd r))))
           renders ->
         exists w' msgs,
           run_renders None renders w = (Ok tt, w')
           /\ toasts w' = toasts w ++ msgs
           /\ Forall2
                (fun r t =>
                   forall w0,
                     fst (handleError (error_response_data (Some r)) w0) = Ok t)
                (occurrences None (map (fun r => error (snd r)) renders)) msgs).
Proof.
  split.
  - apply run_renders_muted.
  - intros m Hm H. apply (run_renders_unmuted m Hm renders None None w); auto.
Qed.

Lemma useServerQuery_notifications_witness :
  run_renders None (sample_renders muted_server_query)
    (fresh_world (answering JNull))
  = (Ok tt, fresh_world (answering JNull))
  /\ exists w' msgs,
       run_renders None (sample_renders sample_server_query)
         (fresh_world (answering JNull)) = (Ok tt, w')
       /\ toasts w' = toasts (fresh_world (answering JNull)) ++ msgs
       /\ Forall2
            (fun r t =>
               forall w0,
                 fst (handleError (error_response_data (Some r)) w0) = Ok t)
            (occurrences None
               (map (fun r => error (snd r)) (sample_renders sample_server_query)))
            msgs.
Proof.
  split.
  - apply (proj1 (useServerQuery_notifications
                    (sample_renders muted_server_query)
                    (fresh_world (answering JNull)))).
    repeat constructor.
  - apply (proj2 (useServerQuery_notifications
                    (sample_renders sample_server_query)
                    (fresh_world (answering JNull))) None); [reflexivity|].
    repeat (constructor;
            [split; [reflexivity|split;
               [split; [discriminate || (intros _; discriminate)
                       | reflexivity || (intros H; now destruct H)]
               | intros e He; vm_compute in He; inversion He;
                 right; eexists; reflexivity]]|]).
    constructor.
Defined.

(** C8, as stated, fails. An error whose body is [{ error: 42 }] is one
    occurrence on an unmuted query, and the notifier is not called for it:
    the effect writes its console line and then raises a [TypeError],
    since a number has no [includes]. And when the flag of an unmuted
    query goes from absent to [false] while one error persists, the
    effect runs again, the flag being one of its dependencies: two
    notifications for one occurrence. *)
Lemma useServerQuery_notifications_exceptions :
  (occurrences None
     (map (fun r => error (snd r))
        [(sample_server_query, showing malformed_error)])
   = [malformed_error]
   /\ run_renders None [(sample_server_query, showing malformed_error)]
        (fresh_world (answering JNull))
      = (Throw (Native TypeError),
         add_console [("Server error", LogError (Some malformed_error))]
           (fresh_world (answering JNull)))
   /\ toasts (snd (run_renders None
                     [(sample_server_query, showing malformed_error)]
                     (fresh_world (answering JNull))))
      = [])
  /\ (occurrences None
        (map (fun r => error (snd r))
           [(sample_server_query, showing first_error);
            (unmuted_server_query, showing first_error)])
      = [first_error]
      /\ toasts (snd (run_renders None
                        [(sample_server_query, showing first_error);
                         (unmuted_server_query, showing first_error)]
                        (fresh_world (answering JNull))))
         = [rate_limit_message; rate_limit_message]).
Proof. repeat split; reflexivity. Qed.

(** The sample renders: three notifications, none for the render at which
    the first error persists. *)
Example sample_renders_toasts :
  toasts (snd (run_renders None (sample_renders sample_server_query)
                 (fresh_world (answering JNull))))
  = ["Anilist: Too many requests, please wait a moment and try again";
     "Anilist: Too many requests, please wait a moment and try again";
     "Server Error (500)"]
  /\ occurrences None (map error sample_errors)
     = [first_error; first_error; second_error].
Proof. split; reflexivity. Qed.

(** ** Further properties of the request executor *)

(** X1. When the transport fails, [buildQuery] rejects with the
    transport's own error, unchanged: the decoder and the classifier play
    no part, and nothing is logged or notified. *)
Theorem buildQuery_propagates_rejection (q : Query) (w : world) (e : AxiosError) :
  transport w (sent w) (request_of w q) = inl e ->
  fst (buildQuery q w) = Throw (Rejected e)
  /\ console (snd (buildQuery q w)) = console w
  /\ toasts (snd (buildQuery q w)) = toasts w.
Proof.
  intros H. rewrite (buildQuery_rejected q w e H). now repeat split.
Qed.

Lemma buildQuery_propagates_rejection_witness :
  fst (buildQuery sample_query (fresh_world (failing rate_limited)))
  = Throw (Rejected rate_limited).
Proof.
  apply (buildQuery_propagates_rejection sample_query
           (fresh_world (failing rate_limited)) rate_limited).
  reflexivity.
Defined.

(** X2. Every invocation of [buildQuery] issues exactly one network call,
    whatever its outcome: to the base URL followed by the endpoint, with
    the descriptor's method, body and query parameters; it leaves the
    console and the notifier alone. *)
Theorem buildQuery_one_request (q : Query) (w : world) :
  sent (snd (buildQuery q w))
  = sent w ++ [{| url := server_base_url w +:+ endpoint q;
                  config_method := method q;
                  config_data := data q;
                  config_params := params q |}]
  /\ console (snd (buildQuery q w)) = console w
  /\ toasts (snd (buildQuery q w)) = toasts w.
Proof.
  destruct (transport w (sent w) (request_of w q)) as [e|resp] eqn:H.
  - rewrite (buildQuery_rejected q w e H). now repeat split.
  - rewrite (buildQuery_resolved q w resp H). now repeat split.
Qed.

(** ** Further properties of the envelope decoder *)

(** X3. The decoder never raises, on any value: the [typeof] and [!!]
    tests keep the [in] operator from primitives. Its result never holds
    both a payload and an error, and its error slot is a string or
    [undefined]. *)
Theorem handleResponse_total_exclusive (b : value) :
  exists d,
    handleResponse b = Val d
    /\ (decoded_data d = JUndefined \/ decoded_error d = JUndefined)
    /\ (decoded_error d = JUndefined \/ exists s, decoded_error d = JStr s).
Proof.
  exists (Envelope_decode b). split; [apply handleResponse_decode|].
  unfold Envelope_decode.
  destruct (object_field b "error") as [[| | | |s| |]|];
    destruct (object_field b "data"); cbn; split; auto; right; eauto.
Qed.

(** X4. The decoder reads the [error] and [data] fields only: a field of
    any other name, added or overwritten, changes nothing. *)
Theorem handleResponse_ignores_other_fields
    (fields : gmap string value) (k : string) (v : value) :
  k <> "error" -> k <> "data" ->
  handleResponse (JObj (<[k := v]> fields)) = handleResponse (JObj fields).
Proof.
  intros He Hd. rewrite !handleResponse_decode. unfold Envelope_decode.
  cbn [object_field]. now rewrite !lookup_insert_ne by congruence.
Qed.

Lemma handleResponse_ignores_other_fields_witness :
  handleResponse (JObj (<["status" := JNum (num_of_Z 200)]>
                          {[ "data" := JStr "ok" ]}))
  = handleResponse (JObj {[ "data" := JStr "ok" ]}).
Proof.
  apply handleResponse_ignores_other_fields; discriminate.
Defined.

(** ** Further properties of the error classifier *)

(** [ToString] raises nothing but a [TypeError]. *)
Lemma to_string_error : forall (v : value) (e : native_error),
  to_string v = Err e -> e = TypeError.
Proof.
  fix IH 1. intros v e. destruct v as [| |b|n|s|items|fields];
    cbn [to_string]; try discriminate.
  - match goal with
    | |- ?join true items = Err e -> _ =>
        cut (forall first, join first items = Err e -> e = TypeError);
          [intros Hjoin; exact (Hjoin true)|]
    end.
    induction items as [|x items IHitems]; intros first; [discriminate|].
    assert (Hx : forall e', match x with
                            | JUndefined | JNull => Val EmptyString
                            | _ => to_string x
                            end = Err e' -> e' = TypeError).
    { intros e' H. apply (IH x). destruct x; try discriminate; exact H. }
    destruct (match x with
              | JUndefined | JNull => Val EmptyString
              | _ => to_string x
              end) as [sx|ex] eqn:Ex; cbn [res_bind].
    + match goal with
      | |- context [res_bind ?j _] => destruct j as [sl|el] eqn:El
      end; cbn [res_bind]; [discriminate|].
      intros H. inversion H; subst. exact (IHitems _ El).
    + intros H. inversion H; subst. now apply Hx.
  - destruct (fields !! "toString"); [|discriminate].
    intros H. now inversion H.
Qed.

(** X5. The classifier never calls the notifier and never touches the
    network; all it writes is at most one console line, labelled
    ["Anilist error"], holding the value the payload's [error] field
    parsed to. *)
Theorem handleError_footprint (p : value) (w : world) :
  toasts (snd (handleError p w)) = toasts w
  /\ sent (snd (handleError p w)) = sent w
  /\ (console (snd (handleError p w)) = console w
      \/ exists err v,
           object_field p "error" = Some err
           /\ JSON_parse err = Val v
           /\ console (snd (handleError p w))
              = console w ++ [("Anilist error", LogValue v)]).
Proof.
  unfold handleError. rewrite opt_get_error.
  destruct (object_field p "error") as [err|];
    unfold bind, lift, try_catch, console_log, ret; cbn [default];
    repeat (case_match; simplify_eq; cbn [snd fst]); cbn; auto;
    split; auto; split; auto; right; eauto.
Qed.

Lemma opt_get_error_val (p : value) (e : native_error) :
  opt_get p "error" <> Err e.
Proof. rewrite opt_get_error. discriminate. Qed.

(** X6. The classifier raises only on a payload that is not a string and
    whose [error] field is neither falsy nor a string, and what it raises
    is a [TypeError]: the [SyntaxError] of [JSON.parse] never escapes the
    [try] block, and nothing is notified. *)
Theorem handleError_raises_only_TypeError
    (p : value) (w w' : world) (e : exn) :
  handleError p w = (Throw e, w') ->
  e = Native TypeError
  /\ typeof p <> "string"
  /\ (exists x, object_field p "error" = Some x
                /\ to_boolean x = true /\ forall s, x <> JStr s)
  /\ toasts w' = toasts w.
Proof.
  intros H.
  assert (Ht : toasts w' = toasts w).
  { destruct (handleError_logs_only p) as (r & l & Hl).
    rewrite Hl in H. now inversion H. }
  assert (He : e = Native TypeError).
  { revert H. unfold handleError, bind, lift, try_catch, console_log, ret, concat.
    repeat (case_match; simplify_eq; cbn [res_bind]);
      intros Hrun; simplify_eq;
      repeat match goal with
             | H : res_bind ?r _ = Err _ |- _ =>
                 destruct r eqn:?; cbn [res_bind] in H; simplify_eq
             | H : call_includes _ _ = Err ?x |- _ =>
                 assert (x = TypeError)
                   by (revert H; unfold call_includes;
                       repeat case_match; congruence);
                 clear H
             | H : to_string _ = Err ?x |- _ => apply to_string_error in H
             | H : opt_get _ "error" = Err _ |- _ =>
                 now apply opt_get_error_val in H
             end; subst; try reflexivity; try discriminate.
  }
  split; [exact He|].
  assert (Hn : ~ error_is_text p).
  { intros Hp. destruct (handleError_returns p w Hp) as (t & l & Hr & _).
    rewrite Hr in H. discriminate. }
  split.
  { intros Hs. apply Hn. apply error_is_text_primitive.
    intros fields ->. discriminate. }
  split; [|exact Ht].
  destruct (object_field p "error") as [x|] eqn:Hx.
  - exists x. split; [reflexivity|].
    destruct (to_boolean x) eqn:Hb.
    + split; [reflexivity|]. intros s ->. apply Hn.
      intros e' He'. rewrite Hx in He'. inversion He'. right. now exists s.
    + destruct Hn. intros e' He'. rewrite Hx in He'. inversion He'; subst.
      now left.
  - destruct Hn. intros e' He'. rewrite Hx in He'. discriminate.
Qed.

Lemma handleError_raises_only_TypeError_witness :
  handleError (JObj {[ "error" := JBool true ]}) (fresh_world (answering JNull))
  = (Throw (Native TypeError), fresh_world (answering JNull))
  /\ exists x, object_field (JObj {[ "error" := JBool true ]}) "error" = Some x
               /\ to_boolean x = true /\ forall s, x <> JStr s.
Proof.
  split; [reflexivity|].
  apply (handleError_raises_only_TypeError
           (JObj {[ "error" := JBool true ]})
           (fresh_world (answering JNull)) (fresh_world (answering JNull))
           (Native TypeError)).
  reflexivity.
Defined.

(** X7. Whenever the classifier returns, its text is one of six forms,
    none of them empty: ["Server Error"] followed by the string payload,
    ["Unknown error"], the rate-limit message, ["Anilist error"],
    ["Anilist error: "] followed by the text of the first message of the
    value the payload's [error] field parsed to, or ["Error: "] followed
    by the text of the payload's [error] field. *)
Theorem handleError_forms (p : value) (w w' : world) (t : string) :
  handleError p w = (Ok t, w') ->
  t <> EmptyString
  /\ ((exists s, p = JStr s /\ t = "Server Error" +:+ s)
      \/ t = "Unknown error"
      \/ t = "Anilist: Too many requests, please wait a moment and try again"
      \/ t = "Anilist error"
      \/ (exists err g m text,
             object_field p "error" = Some err
             /\ JSON_parse err = Val g
             /\ first_message g = Val m
             /\ to_string m = Val text
             /\ t = "Anilist error: " +:+ text)
      \/ (exists err text,
             object_field p "error" = Some err
             /\ to_string err = Val text
             /\ t = "Error: " +:+ text)).
Proof.
  unfold handleError. rewrite opt_get_error.
  destruct (object_field p "error") as [err|];
    unfold bind, lift, try_catch, console_log, ret, concat; cbn [default];
    destruct p; cbn [typeof String.eqb Ascii.eqb Bool.eqb to_string res_bind];
    repeat (case_match; simplify_eq; cbn [res_bind]);
    intros Hrun; simplify_eq;
    repeat match goal with
           | H : res_bind ?r _ = Val _ |- _ =>
               destruct r eqn:?; cbn [res_bind] in H; simplify_eq
           end;
    (split; [discriminate|]); eauto 15.
Qed.

Lemma handleError_forms_witness :
  "Error: not json" <> EmptyString
  /\ ((exists s, declared_error "not json" = JStr s
                 /\ "Error: not json" = "Server Error" +:+ s)
      \/ "Error: not json" = "Unknown error"
      \/ "Error: not json"
         = "Anilist: Too many requests, please wait a moment and try again"
      \/ "Error: not json" = "Anilist error"
      \/ (exists err g m text,
             object_field (declared_error "not json") "error" = Some err
             /\ JSON_parse err = Val g
             /\ first_message g = Val m
             /\ to_string m = Val text
             /\ "Error: not json" = "Anilist error: " +:+ text)
      \/ (exists err text,
             object_field (declared_error "not json") "error" = Some err
             /\ to_string err = Val text
             /\ "Error: not json" = "Error: " +:+ text)).
Proof.
  apply (handleError_forms (declared_error "not json")
           (fresh_world (answering JNull)) (fresh_world (answering JNull))).
  reflexivity.
Defined.

(** X8. On a payload that is not a string the classifier reads the
    [error] field only: two payloads with the same [error] field (or both
    without one) get the same text and the same console line, whatever
    else they hold, a status or a code. *)
Theorem handleError_reads_error_only (p1 p2 : value) (w : world) :
  typeof p1 <> "string" -> typeof p2 <> "string" ->
  object_field p1 "error" = object_field p2 "error" ->
  handleError p1 w = handleError p2 w.
Proof.
  intros H1 H2 He. unfold handleError.
  now rewrite (typeof_not_string p1 H1), (typeof_not_string p2 H2),
    !opt_get_error, He.
Qed.

Lemma handleError_reads_error_only_witness :
  handleError (JObj {[ "error" := JStr "Too many requests";
                       "status" := JNum (num_of_Z 429) ]})
    (fresh_world (answering JNull))
  = handleError (declared_error "Too many requests")
      (fresh_world (answering JNull))
  /\ handleError (JNum (num_of_Z 502)) (fresh_world (answering JNull))
     = handleError JUndefined (fresh_world (answering JNull)).
Proof.
  split; apply handleError_reads_error_only;
    first [discriminate | reflexivity].
Defined.

(** ** Further properties of the mutation wrapper *)

(** X9. The [mutationFn] slot of [useServerMutation]. A caller's own
    [mutationFn] takes the slot. Without one the slot holds the wrapper's
    function, which for every argument sends exactly one request, to the
    hook's endpoint with the hook's method, the variables as the body and
    no query parameters; it writes nothing to the console and does not
    call the notifier; when the transport completes it resolves to the
    [data] slot of the decoded body, so to [undefined] on a declared
    [{ error }] envelope; when the transport fails it rejects with the
    transport's error. *)
Theorem useServerMutation_mutationFn (cfg : ServerMutation) :
  (forall s, mutation_options cfg !! "mutationFn" = Some s ->
             useServerMutation cfg !! "mutationFn" = Some s)
  /\ (mutation_options cfg !! "mutationFn" = None ->
      exists fn,
        useServerMutation cfg !! "mutationFn" = Some (SMutationFn fn)
        /\ forall variables w,
             sent (snd (fn variables w))
             = sent w ++ [{| url := server_base_url w +:+ mutation_endpoint cfg;
                             config_method := mutation_method cfg;
                             config_data := variables;
                             config_params := JUndefined |}]
             /\ console (snd (fn variables w)) = console w
             /\ toasts (snd (fn variables w)) = toasts w
             /\ (forall resp,
                    transport w (sent w)
                      {| url := server_base_url w +:+ mutation_endpoint cfg;
                         config_method := mutation_method cfg;
                         config_data := variables;
                         config_params := JUndefined |} = inr resp ->
                    fst (fn variables w)
                    = Ok (decoded_data (Envelope_decode (response_data resp)))
                    /\ (forall s,
                           object_field (response_data resp) "error"
                           = Some (JStr s) ->
                           fst (fn variables w) = Ok JUndefined))
             /\ (forall e,
                    transport w (sent w)
                      {| url := server_base_url w +:+ mutation_endpoint cfg;
                         config_method := mutation_method cfg;
                         config_data := variables;
                         config_params := JUndefined |} = inl e ->
                    fst (fn variables w) = Throw (Rejected e))).
Proof.
  split.
  - intros s H. unfold useServerMutation. now apply spread_lookup_over.
  - intros Hfn. exists (mutation_mutationFn cfg). split.
    + unfold useServerMutation. rewrite spread_lookup_base by assumption.
      rewrite lookup_insert_ne by discriminate. now rewrite lookup_singleton_eq.
    + intros variables w. unfold mutation_mutationFn.
      set (q := {| endpoint := mutation_endpoint cfg;
                   method := mutation_method cfg;
                   data := variables; params := JUndefined |}).
      change {| url := server_base_url w +:+ mutation_endpoint cfg;
                config_method := mutation_method cfg;
                config_data := variables;
                config_params := JUndefined |} with (request_of w q).
      destruct (transport w (sent w) (request_of w q)) as [e|resp] eqn:Hnet.
      * rewrite (buildQuery_rejected q w e Hnet). cbn [fst snd].
        split; [reflexivity|]. split; [reflexivity|]. split; [reflexivity|].
        split; [discriminate|]. intros e' He'. congruence.
      * rewrite (buildQuery_resolved q w resp Hnet). cbn [fst snd].
        split; [reflexivity|]. split; [reflexivity|]. split; [reflexivity|].
        split; [|discriminate].
        intros resp' Hresp. assert (resp' = resp) as -> by congruence.
        split; [reflexivity|].
        intros s Hs. now rewrite (Envelope_decode_error _ s Hs).
Qed.

Lemma useServerMutation_mutationFn_witness :
  useServerMutation custom_mutation !! "mutationFn"
  = Some (SMutationFn caller_mutationFn)
  /\ exists fn,
       useServerMutation sample_mutation !! "mutationFn" = Some (SMutationFn fn)
       /\ fst (fn JNull (fresh_world (answering (declared_error "entry not found"))))
          = Ok JUndefined
       /\ toasts (snd (fn JNull
                         (fresh_world (answering (declared_error "entry not found")))))
          = [].
Proof.
  split.
  - apply (proj1 (useServerMutation_mutationFn custom_mutation)). reflexivity.
  - destruct (proj2 (useServerMutation_mutationFn sample_mutation) eq_refl)
      as (fn & Hfn & H).
    exists fn. split; [exact Hfn|].
    destruct (H JNull (fresh_world (answering (declared_error "entry not found"))))
      as (_ & _ & Ht & Hok & _).
    split; [|exact Ht].
    apply (proj2 (Hok {| status := 200;
                         response_data := declared_error "entry not found" |}
                    eq_refl) "entry not found").
    reflexivity.
Defined.

(** ** Further properties of the query wrapper *)

(** X10. The options [useServerQuery] hands to [useQuery] are the caller's
    options over the wrapper's [queryFn]: every slot the caller supplies,
    a [queryFn] included, is passed through; without one the fetch
    function is the executor on the fixed descriptor, and running it sends
    one request with the endpoint, method, parameters and body of the
    hook's arguments; the wrapper adds no other slot. *)
Theorem useServerQuery_options_merge (cfg : ServerQuery) :
  (forall k s, query_options cfg !! k = Some s ->
               useServerQuery_options cfg !! k = Some s)
  /\ (forall k, k <> "queryFn" -> query_options cfg !! k = None ->
                useServerQuery_options cfg !! k = None)
  /\ (query_options cfg !! "queryFn" = None ->
      exists f,
        useServerQuery_options cfg !! "queryFn" = Some (SQueryFn f)
        /\ forall w,
             sent (snd (f w))
             = sent w ++ [{| url := server_base_url w +:+ query_endpoint cfg;
                             config_method := query_method cfg;
                             config_data := query_data cfg;
                             config_params := query_params cfg |}]).
Proof.
  split; [|split].
  - intros k s H. now apply spread_lookup_over.
  - intros k Hk H. unfold useServerQuery_options.
    rewrite spread_lookup_base by assumption.
    now rewrite lookup_singleton_ne.
  - intros H. exists (query_queryFn cfg). split.
    + unfold useServerQuery_options. rewrite spread_lookup_base by assumption.
      now rewrite lookup_singleton_eq.
    + intros w. unfold query_queryFn.
      match goal with |- context [buildQuery ?q w] =>
        destruct (transport w (sent w) (request_of w q)) as [e|resp] eqn:Hnet;
          [rewrite (buildQuery_rejected q w e Hnet)
          |rewrite (buildQuery_resolved q w resp Hnet)]
      end; reflexivity.
Qed.

Lemma useServerQuery_options_merge_witness :
  useServerQuery_options custom_server_query !! "queryFn"
  = Some (SQueryFn caller_queryFn)
  /\ useServerQuery_options custom_server_query !! "enabled" = None
  /\ exists f,
       useServerQuery_options sample_server_query !! "queryFn"
       = Some (SQueryFn f)
       /\ forall w,
            sent (snd (f w))
            = sent w ++ [{| url := server_base_url w +:+ "/api/v1/library";
                            config_method := GET;
                            config_data := JUndefined;
                            config_params := JUndefined |}].
Proof.
  split; [|split].
  - apply (proj1 (useServerQuery_options_merge custom_server_query)).
    reflexivity.
  - apply (proj1 (proj2 (useServerQuery_options_merge custom_server_query)));
      [discriminate | reflexivity].
  - apply (proj2 (proj2 (useServerQuery_options_merge sample_server_query))).
    reflexivity.
Defined.

Lemma bind_ret_tt (m : M unit) (w : world) : (m >> ret tt) w = m w.
Proof.
  unfold bind, ret. destruct (m w) as [[[]|e] w']; reflexivity.
Qed.

(** X11. A render is followed by the effect only when a dependency
    changed. A render that shows the same error object, the same [isError]
    and the same mute flag as the one before notifies nothing, whatever
    else changed in the hook's arguments; a render at which the flag
    differs runs the effect again, so for an error that persists, a flag
    going from absent to false notifies a second time. *)
Theorem useServerQuery_rerender
    (cfg1 cfg2 : ServerQuery) (props : QueryResult) (w : world) :
  (muteError cfg1 = muteError cfg2 ->
   run_renders (Some (query_deps cfg1 props)) [(cfg2, props)] w = (Ok tt, w))
  /\ (muteError cfg1 <> muteError cfg2 ->
      truthy_flag (muteError cfg2) = false ->
      isError props = true ->
      error_is_text (error_response_data (error props)) ->
      exists t w',
        run_renders (Some (query_deps cfg1 props)) [(cfg2, props)] w = (Ok tt, w')
        /\ toasts w' = toasts w ++ [t]
        /\ forall w0,
             fst (handleError (error_response_data (error props)) w0) = Ok t).
Proof.
  cbn [run_renders useServerQuery]. split.
  - intros Hm. unfold deps_changed, query_deps. rewrite Hm.
    rewrite bool_decide_eq_true_2 by reflexivity. reflexivity.
  - intros Hm Hf Hi Hp. rewrite bind_ret_tt.
    unfold deps_changed, query_deps.
    rewrite bool_decide_eq_false_2 by congruence. cbn [negb].
    destruct (query_effect_fires cfg2 props w Hf Hi Hp) as (t & w' & H1 & H2 & H3).
    now exists t, w'.
Qed.

Lemma useServerQuery_rerender_witness :
  run_renders (Some (query_deps sample_server_query (showing first_error)))
    [(custom_server_query, showing first_error)]
    (fresh_world (answering JNull))
  = (Ok tt, fresh_world (answering JNull))
  /\ exists t w',
       run_renders (Some (query_deps sample_server_query (showing first_error)))
         [(unmuted_server_query, showing first_error)]
         (fresh_world (answering JNull)) = (Ok tt, w')
       /\ toasts w' = toasts (fresh_world (answering JNull)) ++ [t]
       /\ forall w0,
            fst (handleError (error_response_data (error (showing first_error))) w0)
            = Ok t.
Proof.
  split.
  - apply (proj1 (useServerQuery_rerender sample_server_query
                    custom_server_query (showing first_error)
                    (fresh_world (answering JNull)))).
    reflexivity.
  - apply (proj2 (useServerQuery_rerender sample_server_query
                    unmuted_server_query (showing first_error)
                    (fresh_world (answering JNull))));
      [discriminate | reflexivity | reflexivity |].
    intros e He. vm_compute in He. inversion He. right. eexists. reflexivity.
Defined.

(** X12. What an unmuted query in error notifies when the error carries no
    decoded envelope: ["Unknown error"] when there is no error object or no
    response (the network failed), and ["Server Error"] followed by the
    body when the body is a string; each time after one console line,
    ["Server error"] with the error. *)
Theorem query_effect_without_envelope
    (cfg : ServerQuery) (props : QueryResult) (w : world) :
  truthy_flag (muteError cfg) = false ->
  isError props = true ->
  (error props = None
   \/ (exists r, error props = Some r /\ response (target r) = None) ->
   query_effect cfg props w
   = (Ok tt, add_toasts ["Unknown error"]
               (add_console [("Server error", LogError (error props))] w)))
  /\ (forall r resp s,
         error props = Some r -> response (target r) = Some resp ->
         response_data resp = JStr s ->
         query_effect cfg props w
         = (Ok tt, add_toasts ["Server Error" +:+ s]
                     (add_console [("Server error", LogError (error props))] w))).
Proof.
  intros Hm Hi. unfold query_effect. rewrite Hm, Hi. cbn [negb andb].
  unfold bind, console_log, toast_error. split.
  - intros H.
    assert (Hd : error_response_data (error props) = JUndefined).
    { destruct H as [H|(r & H & Hr)]; rewrite H; cbn; [reflexivity|].
      now rewrite Hr. }
    rewrite Hd. reflexivity.
  - intros r resp s Hr Hresp Hs.
    assert (Hd : error_response_data (error props) = JStr s).
    { rewrite Hr. cbn. now rewrite Hresp. }
    rewrite Hd. reflexivity.
Qed.

Lemma query_effect_without_envelope_witness :
  query_effect sample_server_query (showing network_down)
    (fresh_world (answering JNull))
  = (Ok tt, add_toasts ["Unknown error"]
              (add_console [("Server error", LogError (Some network_down))]
                 (fresh_world (answering JNull))))
  /\ query_effect sample_server_query (showing second_error)
       (fresh_world (answering JNull))
     = (Ok tt, add_toasts ["Server Error (500)"]
                 (add_console [("Server error", LogError (Some second_error))]
                    (fresh_world (answering JNull)))).
Proof.
  split.
  - apply (proj1 (query_effect_without_envelope sample_server_query
                    (showing network_down) (fresh_world (answering JNull))
                    eq_refl eq_refl)).
    right. exists network_down. split; reflexivity.
  - apply (proj2 (query_effect_without_envelope sample_server_query
                    (showing second_error) (fresh_world (answering JNull))
                    eq_refl eq_refl)
             second_error
             {| status := 500; response_data := JStr " (500)" |} " (500)");
      reflexivity.
Defined.
